(** * QAModel_1: the row validation and normalisation pass [clean]

    A shallow embedding of [DataOps/cleandata.py].  The pandas primitives
    the function is written with ([astype], [str.strip], [str.rstrip],
    [str.endswith], [str.upper], [map], [fillna], [to_numeric], [dropna],
    [sort_values], [drop_duplicates]) are modelled by executable functions
    of the same names, and [clean] is their composition in the order of
    the source. *)

From Stdlib Require Import ZArith NArith Ascii String List Lia.
From Stdlib Require Import OrdersEx.
From stdpp Require Import gmap strings list fin_maps sorting.

Local Open Scope Z_scope.

(** ** Python strings *)

(** Strings are Python [str] values restricted to code points below 256;
    only the ASCII letters have a case. *)
Module PyStr.

(** [str.isspace] on one character: TAB..CR, FS..US, SPACE, NEL, NBSP. *)
Definition isspace (a : ascii) : bool :=
  let n := N_of_ascii a in
  ((9 <=? n) && (n <=? 13) || (28 <=? n) && (n <=? 32)
   || (n =? 133) || (n =? 160))%N.

Definition is_caret (a : ascii) : bool := Ascii.eqb a "^".

Fixpoint lstrip (s : string) : string :=
  match s with
  | EmptyString => EmptyString
  | String a t => if isspace a then lstrip t else s
  end.

(** [s.rstrip(chars)], the set of characters given as a predicate. *)
Fixpoint rstrip_chars (p : ascii -> bool) (s : string) : string :=
  match s with
  | EmptyString => EmptyString
  | String a t =>
      match rstrip_chars p t with
      | EmptyString => if p a then EmptyString else String a EmptyString
      | t' => String a t'
      end
  end.

(** [s.strip()] *)
Definition strip (s : string) : string := lstrip (rstrip_chars isspace s).

(** [s.endswith(suffix)] *)
Fixpoint endswith (s suffix : string) : bool :=
  String.eqb s suffix
  || match s with
     | EmptyString => false
     | String _ t => endswith t suffix
     end.

Definition upper_char (a : ascii) : ascii :=
  let n := N_of_ascii a in
  if ((97 <=? n) && (n <=? 122))%N then ascii_of_N (n - 32) else a.

Definition lower_char (a : ascii) : ascii :=
  let n := N_of_ascii a in
  if ((65 <=? n) && (n <=? 90))%N then ascii_of_N (n + 32) else a.

Fixpoint map_chars (f : ascii -> ascii) (s : string) : string :=
  match s with
  | EmptyString => EmptyString
  | String a t => String (f a) (map_chars f t)
  end.

(** [s.upper()] and [s.lower()] *)
Definition upper : string -> string := map_chars upper_char.
Definition lower : string -> string := map_chars lower_char.

(** Python's [<] on strings: lexicographic on code points. *)
Definition ltb (a b : string) : bool :=
  match String_as_OT.compare a b with Lt => true | _ => false end.

Definition leb (a b : string) : bool := negb (ltb b a).

End PyStr.

(** ** Numbers *)

(** A numeric cell.  [Fin m e] is the finite value [m * 10^e]: an [int64]
    cell [n] is [Fin n 0], a decimal reading such as [1.5] is [Fin 15 (-1)].
    Binary rounding and overflow of [float64]/[int64] are not modelled. *)
Inductive number :=
| Fin (m : Z) (e : Z)
| Inf (neg : bool).

Global Instance number_eq_dec : EqDecision number.
Proof. solve_decision. Defined.

Module Numeric.

Definition digit_of (a : ascii) : option N :=
  let n := N_of_ascii a in
  if ((48 <=? n) && (n <=? 57))%N then Some (n - 48)%N else None.

Definition digit_char (d : N) : ascii := ascii_of_N (48 + d).

Fixpoint digits_val (s : string) (acc : N) : option N :=
  match s with
  | EmptyString => Some acc
  | String a t =>
      match digit_of a with
      | Some d => digits_val t (acc * 10 + d)%N
      | None => None
      end
  end.

(** Split at the first character satisfying [p]; the separator is dropped. *)
Fixpoint split_at (p : ascii -> bool) (s : string) : string * option string :=
  match s with
  | EmptyString => (EmptyString, None)
  | String a t =>
      if p a then (EmptyString, Some t)
      else let '(x, y) := split_at p t in (String a x, y)
  end.

Definition is_dot (a : ascii) : bool := Ascii.eqb a ".".
Definition is_exp (a : ascii) : bool := Ascii.eqb a "e" || Ascii.eqb a "E".

(** [digits [. digits]] or [. digits]: the digits read as one integer and
    the number of digits after the point. *)
Definition parse_mantissa (s : string) : option (N * nat) :=
  let '(ip, fp) := split_at is_dot s in
  let fp := default EmptyString fp in
  match String.append ip fp with
  | EmptyString => None
  | ds => n ← digits_val ds 0; Some (n, String.length fp)
  end.

Definition split_sign (s : string) : bool * string :=
  match s with
  | String "-" t => (true, t)
  | String "+" t => (false, t)
  | _ => (false, s)
  end.

Definition signed (neg : bool) (n : N) : Z :=
  if neg then - Z.of_N n else Z.of_N n.

Definition parse_exponent (s : option string) : option Z :=
  match s with
  | None => Some 0
  | Some s =>
      let '(neg, ds) := split_sign s in
      match ds with
      | EmptyString => None
      | _ => n ← digits_val ds 0; Some (signed neg n)
      end
  end.

Definition is_inf_name (s : string) : bool :=
  let l := PyStr.lower s in String.eqb l "inf" || String.eqb l "infinity".

(** The value [pd.to_numeric(..., errors="coerce")] gives to one string:
    [None] stands for NaN, the result of every string that is not a
    number (and of the string "nan").  A numeral is read as the decimal it
    writes: the rounding to [float64] and its overflow are not modelled, so
    nothing below relies on [parse] reading back what [repr] wrote. *)
Definition parse (s : string) : option number :=
  let '(neg, body) := split_sign s in
  if is_inf_name body then Some (Inf neg)
  else
    let '(mant, ex) := split_at is_exp body in
    '(n, k) ← parse_mantissa mant;
    x ← parse_exponent ex;
    Some (Fin (signed neg n) (x - Z.of_nat k)).

(** Decimal digits of a natural number, most significant first. *)
Fixpoint digits_of (fuel : nat) (n : N) (acc : string) : string :=
  let acc' := String (digit_char (n mod 10)) acc in
  match fuel with
  | O => acc'
  | S fuel' => if (n <? 10)%N then acc' else digits_of fuel' (n / 10) acc'
  end.

Definition str_of_N (n : N) : string :=
  digits_of (N.to_nat (N.log2 n)) n EmptyString.

Definition str_of_Z (z : Z) : string :=
  if z <? 0 then String "-" (str_of_N (Z.abs_N z)) else str_of_N (Z.abs_N z).

Fixpoint zeros (k : nat) : string :=
  match k with O => EmptyString | S k' => String "0" (zeros k') end.

Fixpoint take (k : nat) (s : string) : string :=
  match k, s with
  | S k', String a t => String a (take k' t)
  | _, _ => EmptyString
  end.

Fixpoint drop (k : nat) (s : string) : string :=
  match k, s with
  | S k', String _ t => drop k' t
  | _, _ => s
  end.

(** [k] digits after the point, at least one before it. *)
Definition fixed (n : N) (k : nat) : string :=
  let ds := str_of_N n in
  let ds := String.append (zeros (S k - String.length ds)) ds in
  let i := (String.length ds - k)%nat in
  String.append (take i ds) (String "." (drop i ds)).

(** [str(x)] of a number: integers in plain digits, decimals in fixed
    notation, [m e k] for a positive exponent.  Python's choice between
    fixed and exponent notation for a [float] is not modelled; what is used
    of [repr] below is that it writes no whitespace and no caret. *)
Definition repr (x : number) : string :=
  match x with
  | Inf neg => if neg then "-inf" else "inf"
  | Fin m e =>
      if e =? 0 then str_of_Z m
      else if e <? 0 then
        String.append (if m <? 0 then "-" else "")
                      (fixed (Z.abs_N m) (Z.to_nat (- e)))
      else String.append (str_of_Z m) (String "e" (str_of_Z e))
  end.

End Numeric.

(** ** Cells, rows and tables *)

(** One cell of a table.  [NaN] is the missing value of a [float64] or
    [object] column ([NaN], [None]); [NA] is the missing value of the
    ["string"] dtype ([pd.NA]). *)
Inductive cell :=
| NaN
| NA
| Str (s : string)
| Num (x : number)
| Bool (b : bool).

Global Instance cell_eq_dec : EqDecision cell.
Proof. solve_decision. Defined.

(** [str(x)], as [astype(str)] renders a cell. *)
Definition str_of (c : cell) : string :=
  match c with
  | NaN => "nan"
  | NA => "<NA>"
  | Str s => s
  | Num x => Numeric.repr x
  | Bool b => if b then "True" else "False"
  end.

(** Elementwise [Series] methods.  A string-valued intermediate series is
    modelled by [option string], [None] being a missing element. *)
Module Series.

Definition isna (c : cell) : bool :=
  match c with NaN | NA => true | _ => false end.

Definition notna (c : cell) : bool := negb (isna c).

(** [.astype("string")] *)
Definition astype_string (c : cell) : cell :=
  if isna c then NA else Str (str_of c).

(** [.astype(str)] *)
Definition astype_str (c : cell) : option string := Some (str_of c).

Definition str_strip (o : option string) : option string :=
  PyStr.strip <$> o.

Definition str_rstrip (p : ascii -> bool) (o : option string) : option string :=
  PyStr.rstrip_chars p <$> o.

Definition str_upper (o : option string) : option string :=
  PyStr.upper <$> o.

Definition fillna {A} (v : A) (o : option A) : A := default v o.

Definition str_endswith (suffix : string) (s : string) : bool :=
  PyStr.endswith s suffix.

(** [.astype(int)] of a boolean *)
Definition astype_int (b : bool) : Z := Z.b2z b.

(** [.map(d)] with a dict [d]: keys that are absent give a missing value. *)
Fixpoint dict_get {V} (d : list (string * V)) (k : string) : option V :=
  match d with
  | [] => None
  | (k', v) :: d' => if String.eqb k k' then Some v else dict_get d' k
  end.

Definition map_dict {V} (d : list (string * V)) (o : option string) : option V :=
  o ≫= dict_get d.

(** [pd.to_numeric(s, errors="coerce")] *)
Definition to_numeric (o : option string) : option number :=
  o ≫= Numeric.parse.

(** [s | t] on an integer column *)
Definition int_or (c : cell) (b : Z) : cell :=
  match c with
  | Num (Fin a 0) => Num (Fin (Z.lor a b) 0)
  | _ => NaN
  end.

End Series.

(** A row keeps the index label pandas attaches to it. *)
Record Row := mkRow { index : nat; cells : gmap string cell }.

Record DataFrame := mkDF { columns : list string; rows : list Row }.

Definition get (r : Row) (col : string) : cell := default NaN (cells r !! col).

Definition set (col : string) (v : cell) (r : Row) : Row :=
  mkRow (index r) (<[col := v]> (cells r)).

Definition len (df : DataFrame) : Z := Z.of_nat (length (rows df)).

(** [df[keep].copy()] *)
Definition select (keep : list string) (df : DataFrame) : DataFrame :=
  mkDF keep
    ((λ r, mkRow (index r) (list_to_map ((λ c, (c, get r c)) <$> keep)))
       <$> rows df).

(** [df[col] = f(row)], elementwise; a new column goes last. *)
Definition assign (col : string) (f : Row -> cell) (df : DataFrame) : DataFrame :=
  mkDF (if decide (col ∈ columns df) then columns df else columns df ++ [col])
       ((λ r, set col (f r) r) <$> rows df).

(** [for col in cols: if col in df.columns: df = body(col, df)] *)
Definition for_present (cols : list string)
    (body : string -> DataFrame -> DataFrame) (df : DataFrame) : DataFrame :=
  foldl (λ d col, if decide (col ∈ columns d) then body col d else d) df cols.

(** [df[mask]] *)
Definition where_ (mask : Row -> bool) (df : DataFrame) : DataFrame :=
  mkDF (columns df) (filter (λ r, mask r = true) (rows df)).

Inductive exn :=
| KeyError (missing : list string)
| IndexError.

Inductive result (A : Type) :=
| Ok (a : A)
| Raise (e : exn).
Arguments Ok {A} a.
Arguments Raise {A} e.

Global Instance result_ret : MRet result := λ A a, Ok a.

Global Instance result_bind : MBind result := λ A B k x,
  match x with
  | Ok a => k a
  | Raise e => Raise e
  end.

(** [df.dropna(subset=...)]: a label of [subset] that is not a column is a
    [KeyError], whatever the rows. *)
Definition dropna (subset : list string) (df : DataFrame) : result DataFrame :=
  match filter (λ c, c ∉ columns df) subset with
  | [] => Ok (where_ (λ r, forallb (λ c, Series.notna (get r c)) subset) df)
  | missing => Raise (KeyError missing)
  end.

(** [df.sort_values(by)].  [argsort] is numpy's [argsort] on the key column:
    the positions of the rows in sorted order.  The call sits after
    [dropna], so the key column holds no missing value and the keys are
    compared as strings. *)
Definition sort_values (argsort : list string -> list nat) (by_ : string)
    (df : DataFrame) : result DataFrame :=
  if decide (by_ ∈ columns df) then
    match mapM (λ i, rows df !! i) (argsort ((λ r, str_of (get r by_)) <$> rows df)) with
    | Some rs => Ok (mkDF (columns df) rs)
    | None => Raise IndexError
    end
  else Raise (KeyError [by_]).

(** [duplicated(keep="first")] row by row: [seen] holds the keys of the
    rows before. *)
Fixpoint keep_first (key : Row -> cell) (seen : list cell) (rs : list Row) : list Row :=
  match rs with
  | [] => []
  | r :: rs' =>
      if decide (key r ∈ seen) then keep_first key seen rs'
      else r :: keep_first key (key r :: seen) rs'
  end.

(** [df.drop_duplicates(subset=[col], keep="first")] *)
Definition drop_duplicates (col : string) (df : DataFrame) : result DataFrame :=
  if decide (col ∈ columns df) then
    Ok (mkDF (columns df) (keep_first (λ r, get r col) [] (rows df)))
  else Raise (KeyError [col]).

(** ** The schema *)

Definition ID_COL : list string := ["gtin"].

Definition TEXT_COLS : list string :=
  ["category_name"; "product_name"; "ingredients_text"].

Definition NUTRIENT_COLS : list string :=
  ["calories"; "total_fat"; "sat_fat"; "trans_fat"; "unsat_fat";
   "cholesterol"; "sodium"; "carbs"; "dietary_fiber";
   "total_sugars"; "added_sugars"; "protein"; "potassium"].

Definition TAG_COLS : list string :=
  ["is_whole_grain"; "is_omega_three"; "is_healthy_oils"; "is_healthy_fats";
   "is_seed_oil"; "is_refined_grains"; "is_deep_fried"; "is_sugars_added";
   "is_artificial_sweeteners"; "is_artificial_flavors";
   "is_artificial_preservatives"; "is_artificial_colors";
   "is_artificial_red_color"; "is_ph_oil"; "is_aspartame";
   "is_acesulfame_potassium"; "is_saccharin"; "is_corn_syrup";
   "is_brominated_vegetable_oil"; "is_potassium_bromate";
   "is_titanium_dioxide"; "is_phosphate_additives"; "is_polysorbate60";
   "is_mercury_fish"; "is_caregeenan"; "is_natural_non_kcal_sweeteners";
   "is_natural_additives"; "is_unspecific_ingredient"; "is_propellant";
   "is_starch"; "is_active_live_cultures"].

Definition FLAG_COLS : list string :=
  ["flag_calorie_mismatch"; "flag_fat_mismatch"; "flag_carb_mismatch";
   "flag_sugar_mismatch"; "flag_missing_added_sugars";
   "flag_extra_added_sugars"; "flag_low_sodium"; "flag_high_sodium";
   "flag_negative_values"; "flag_type_error"].

Definition COLS_TO_KEEP : list string :=
  ID_COL ++ TEXT_COLS ++ NUTRIENT_COLS ++ TAG_COLS ++ FLAG_COLS
  ++ ["label_is_anomaly"].

(** ** [clean] *)

(** What [clean] prints: one line per counter, as label and value. *)
Definition stdout := list (string * Z).

(** The elementwise right-hand sides of the column assignments. *)

(** [df[col].astype(str).str.strip()], then
    [col_str.fillna("").str.endswith("^")] *)
Definition has_caret (c : cell) : bool :=
  let col_str := Series.str_strip (Series.astype_str c) in
  Series.str_endswith "^" (Series.fillna "" col_str).

(** [pd.to_numeric(df[col].astype(str).str.rstrip("^").str.strip(),
    errors="coerce")], then [.fillna(-1)] *)
Definition nutrient_value (c : cell) : cell :=
  let numeric_val :=
    Series.str_strip (Series.str_rstrip PyStr.is_caret (Series.astype_str c)) in
  Num (Series.fillna (Fin (-1) 0) (Series.to_numeric numeric_val)).

Definition BOOL_MAP : list (string * bool) :=
  [("TRUE", true); ("FALSE", false); ("1", true); ("0", false)].

(** [.astype(str).str.upper().map({...}).fillna(False).astype(bool)] *)
Definition bool_value (c : cell) : cell :=
  Bool (Series.fillna false
          (Series.map_dict BOOL_MAP (Series.str_upper (Series.astype_str c)))).

(** [df["ingredients_text"].notna()
     & (df["ingredients_text"].astype(str).str.strip() != "")] *)
Definition has_ingredients (c : cell) : bool :=
  Series.notna c
  && negb (bool_decide (Series.str_strip (Series.astype_str c) = Some "")).

Definition clean (argsort : list string -> list nat)
    (df : DataFrame) (verbose : bool) : result (stdout * DataFrame) :=
  let initial_count := len df in
  (* Keep only target columns *)
  let keep := filter (λ c, c ∈ columns df) COLS_TO_KEEP in
  let df := select keep df in
  (* Convert ID and text columns to string *)
  let df :=
    for_present (ID_COL ++ TEXT_COLS)
      (λ col, assign col (λ r, Series.astype_string (get r col))) df in
  (* Create label_is_anomaly from carets in original data *)
  let df := assign "label_is_anomaly" (λ _, Num (Fin 0 0)) df in
  let cols_with_carets := TEXT_COLS ++ NUTRIENT_COLS ++ TAG_COLS in
  let df :=
    for_present cols_with_carets
      (λ col, assign "label_is_anomaly"
                (λ r, Series.int_or (get r "label_is_anomaly")
                        (Series.astype_int (has_caret (get r col))))) df in
  (* Convert nutrient columns to numeric *)
  let df :=
    for_present NUTRIENT_COLS
      (λ col, assign col (λ r, nutrient_value (get r col))) df in
  (* Convert tag and flag columns to boolean *)
  let bool_cols := TAG_COLS ++ FLAG_COLS in
  let df :=
    for_present bool_cols (λ col, assign col (λ r, bool_value (get r col))) df in
  (* Remove rows without GTIN *)
  let before_gtin := len df in
  df ← dropna ["gtin"] df;
  let removed_no_gtin := before_gtin - len df in
  (* Remove rows with empty ingredients_text *)
  let '(df, removed_empty_ingredients) :=
    if decide ("ingredients_text" ∈ columns df) then
      let before_ingredients := len df in
      let df' := where_ (λ r, has_ingredients (get r "ingredients_text")) df in
      (df', before_ingredients - len df')
    else (df, 0) in
  (* Remove duplicate GTINs (keep first occurrence) *)
  let before_duplicates := len df in
  df ← sort_values argsort "gtin" df;
  df ← drop_duplicates "gtin" df;
  let removed_duplicates := before_duplicates - len df in
  let final_count := len df in
  let total_removed := initial_count - final_count in
  let out :=
    if verbose then
      [("Initial rows", initial_count);
       ("Removed (no GTIN)", removed_no_gtin);
       ("Removed (empty ingredients_text)", removed_empty_ingredients);
       ("Removed (duplicate GTINs)", removed_duplicates);
       ("Final rows", final_count);
       ("Total removed", total_removed)]
    else [] in
  Ok (out, df).

(** ** Sorting *)

(** numpy's insertion sort on positions (the whole of its quicksort on at
    most 16 keys): each position is moved left past the keys greater than
    its own, so equal keys keep their order. *)
Fixpoint insert_pos (keys : list string) (i : nat) (sorted : list nat) : list nat :=
  match sorted with
  | [] => [i]
  | j :: t =>
      if PyStr.ltb (nth i keys "") (nth j keys "")
      then i :: j :: t
      else j :: insert_pos keys i t
  end.

Definition insertion_argsort (keys : list string) : list nat :=
  foldl (λ acc i, insert_pos keys i acc) [] (seq 0 (length keys)).


(** * Properties *)

(** ** The schema *)

Definition LABEL : string := "label_is_anomaly".

Lemma NoDup_COLS_TO_KEEP : NoDup COLS_TO_KEEP.
Proof. apply (bool_decide_unpack _). vm_compute. exact I. Qed.

Lemma COLS_TO_KEEP_groups c :
  c ∈ COLS_TO_KEEP ↔
  c ∈ ID_COL ++ TEXT_COLS ∨ c ∈ NUTRIENT_COLS ∨ c ∈ TAG_COLS ++ FLAG_COLS ∨ c = LABEL.
Proof.
  unfold COLS_TO_KEEP. rewrite !elem_of_app, list_elem_of_singleton. tauto.
Qed.

Lemma groups_disjoint :
  Forall (λ c, (c ∉ NUTRIENT_COLS) ∧ (c ∉ TAG_COLS ++ FLAG_COLS) ∧ c ≠ LABEL)
         (ID_COL ++ TEXT_COLS)
  ∧ Forall (λ c, (c ∉ TAG_COLS ++ FLAG_COLS) ∧ c ≠ LABEL) NUTRIENT_COLS
  ∧ Forall (λ c, c ≠ LABEL) (TAG_COLS ++ FLAG_COLS).
Proof. apply (bool_decide_unpack _). vm_compute. exact I. Qed.


(** ** Row-wise view of the column loops *)

Definition row_loop (C cols : list string) (tgt : string -> string)
    (f : string -> Row -> cell) (r : Row) : Row :=
  foldl (λ r col, if decide (col ∈ C) then set (tgt col) (f col r) r else r) r cols.

Lemma for_present_assign cols tgt f df :
  (∀ col, col ∈ cols → col ∈ columns df → tgt col ∈ columns df) →
  for_present cols (λ col, assign (tgt col) (f col)) df
  = mkDF (columns df) (row_loop (columns df) cols tgt f <$> rows df).
Proof.
  revert df. induction cols as [|col cols IH]; intros [C rs] Hin.
  - unfold for_present, row_loop. simpl. by rewrite list_fmap_id.
  - unfold for_present in *. simpl. destruct (decide (col ∈ C)) as [HC|HC].
    + assert (Ht : tgt col ∈ C) by (apply Hin; [left|done]).
      unfold assign at 2. simpl. rewrite decide_True by done.
      rewrite IH by (intros; apply Hin; [by right|done]). simpl.
      f_equal. rewrite <- list_fmap_compose. apply list_fmap_ext.
      intros i r _. unfold row_loop. simpl. by rewrite decide_True.
    + rewrite IH by (intros; apply Hin; [by right|done]). simpl.
      f_equal. apply list_fmap_ext.
      intros i r _. unfold row_loop. simpl. by rewrite decide_False.
Qed.

Lemma index_set col v r : index (set col v r) = index r.
Proof. done. Qed.

Lemma index_row_loop C cols tgt f r : index (row_loop C cols tgt f r) = index r.
Proof.
  revert r. induction cols as [|col cols IH]; intros r; [done|].
  unfold row_loop in *. simpl. rewrite IH. by destruct (decide _).
Qed.

Lemma get_set col v r c :
  get (set col v r) c = if decide (c = col) then v else get r c.
Proof.
  unfold get, set. simpl. destruct (decide (c = col)) as [->|].
  - by rewrite lookup_insert_eq.
  - by rewrite lookup_insert_ne.
Qed.

Lemma lookup_set col v r c :
  cells (set col v r) !! c = if decide (c = col) then Some v else cells r !! c.
Proof.
  unfold set. simpl. destruct (decide (c = col)) as [->|].
  - by rewrite lookup_insert_eq.
  - by rewrite lookup_insert_ne.
Qed.

(** A loop that rewrites each present column of [cols] by [g]. *)
Lemma lookup_row_loop_map C cols (g : cell -> cell) r c :
  NoDup cols →
  cells (row_loop C cols id (λ col r, g (get r col)) r) !! c
  = if decide (c ∈ cols ∧ c ∈ C) then Some (g (get r c)) else cells r !! c.
Proof.
  revert r. induction cols as [|col cols IH]; intros r Hnd.
  - destruct (decide (c ∈ [] ∧ c ∈ C)) as [[H _]|_]; [|done].
    by apply elem_of_nil in H.
  - apply NoDup_cons in Hnd as [Hcol Hnd]. unfold row_loop in *. simpl.
    rewrite IH by done. clear IH.
    destruct (decide (c = col)) as [->|Hne].
    + destruct (decide (col ∈ cols ∧ col ∈ C)) as [[H1 H2]|Hn]; [done|].
      destruct (decide (col ∈ C)) as [HC|HC].
      * rewrite lookup_set, decide_True by done.
        destruct (decide (col ∈ col :: cols ∧ col ∈ C)) as [_|Hn']; [done|].
        exfalso. apply Hn'. split; [left|done].
      * destruct (decide (col ∈ col :: cols ∧ col ∈ C)) as [[_ ?]|_]; done.
    + assert (Hiff : (c ∈ col :: cols ∧ c ∈ C) ↔ (c ∈ cols ∧ c ∈ C)).
      { rewrite elem_of_cons. naive_solver. }
      assert (Hget : get (if decide (col ∈ C) then set col (g (get r col)) r else r) c
                     = get r c).
      { destruct (decide (col ∈ C)); [|done]. by rewrite get_set, decide_False. }
      assert (Hlk : cells (if decide (col ∈ C) then set col (g (get r col)) r else r) !! c
                    = cells r !! c).
      { destruct (decide (col ∈ C)); [|done]. by rewrite lookup_set, decide_False. }
      rewrite Hget, Hlk.
      destruct (decide (c ∈ cols ∧ c ∈ C)), (decide (c ∈ col :: cols ∧ c ∈ C));
        naive_solver.
Qed.

Lemma lor_b2z a b : Z.lor (Z.b2z a) (Z.b2z b) = Z.b2z (a || b).
Proof. by destruct a, b. Qed.

Lemma existsb_ext_in {A} (f g : A -> bool) l :
  (∀ x, x ∈ l → f x = g x) → existsb f l = existsb g l.
Proof.
  induction l as [|a l IH]; intros H; [done|]. simpl.
  rewrite (H a) by left. f_equal. apply IH. intros; apply H. by right.
Qed.

(** The loop that accumulates the anomaly label. *)
Lemma lookup_row_loop_label C cols (h : cell -> bool) r b c :
  LABEL ∉ cols →
  cells r !! LABEL = Some (Num (Fin (Z.b2z b) 0)) →
  cells (row_loop C cols (λ _, LABEL)
           (λ col r, Series.int_or (get r LABEL) (Series.astype_int (h (get r col)))) r) !! c
  = if decide (c = LABEL)
    then Some (Num (Fin (Z.b2z (b || existsb (λ col, bool_decide (col ∈ C) && h (get r col)) cols)) 0))
    else cells r !! c.
Proof.
  revert r b. induction cols as [|col cols IH]; intros r b Hl Hb.
  - simpl. rewrite orb_false_r. by destruct (decide (c = LABEL)) as [->|].
  - apply not_elem_of_cons in Hl as [Hne Hl]. unfold row_loop in *. simpl.
    destruct (decide (col ∈ C)) as [HC|HC].
    + rewrite (IH _ (b || h (get r col))); [|done|].
      * cbn [existsb]. rewrite bool_decide_eq_true_2 by done. cbn [andb].
        destruct (decide (c = LABEL)) as [->|Hc].
        -- do 4 f_equal. rewrite <- orb_assoc. f_equal. f_equal.
           apply existsb_ext_in. intros x Hx.
           rewrite get_set, decide_False; [done|]. by intros ->.
        -- by rewrite lookup_set, decide_False.
      * rewrite lookup_set, decide_True by done.
        unfold get at 1. rewrite Hb. simpl. unfold Series.astype_int.
        by rewrite lor_b2z.
    + rewrite (IH _ b) by done. cbn [existsb].
      by rewrite bool_decide_eq_false_2 by done.
Qed.

(** ** The table before any row is dropped *)

(** The first half of [clean]: projection, typing, labelling, coercion. *)
Definition prepared (df : DataFrame) : DataFrame :=
  let keep := filter (λ c, c ∈ columns df) COLS_TO_KEEP in
  let df := select keep df in
  let df :=
    for_present (ID_COL ++ TEXT_COLS)
      (λ col, assign col (λ r, Series.astype_string (get r col))) df in
  let df := assign "label_is_anomaly" (λ _, Num (Fin 0 0)) df in
  let cols_with_carets := TEXT_COLS ++ NUTRIENT_COLS ++ TAG_COLS in
  let df :=
    for_present cols_with_carets
      (λ col, assign "label_is_anomaly"
                (λ r, Series.int_or (get r "label_is_anomaly")
                        (Series.astype_int (has_caret (get r col))))) df in
  let df :=
    for_present NUTRIENT_COLS
      (λ col, assign col (λ r, nutrient_value (get r col))) df in
  let bool_cols := TAG_COLS ++ FLAG_COLS in
  for_present bool_cols (λ col, assign col (λ r, bool_value (get r col))) df.

(** The second half: the row filters, the sort, the deduplication and the
    report. *)
Definition finish (argsort : list string -> list nat) (verbose : bool)
    (initial_count : Z) (df : DataFrame) : result (stdout * DataFrame) :=
  let before_gtin := len df in
  df ← dropna ["gtin"] df;
  let removed_no_gtin := before_gtin - len df in
  let '(df, removed_empty_ingredients) :=
    if decide ("ingredients_text" ∈ columns df) then
      let before_ingredients := len df in
      let df' := where_ (λ r, has_ingredients (get r "ingredients_text")) df in
      (df', before_ingredients - len df')
    else (df, 0) in
  let before_duplicates := len df in
  df ← sort_values argsort "gtin" df;
  df ← drop_duplicates "gtin" df;
  let removed_duplicates := before_duplicates - len df in
  let final_count := len df in
  let total_removed := initial_count - final_count in
  let out :=
    if verbose then
      [("Initial rows", initial_count);
       ("Removed (no GTIN)", removed_no_gtin);
       ("Removed (empty ingredients_text)", removed_empty_ingredients);
       ("Removed (duplicate GTINs)", removed_duplicates);
       ("Final rows", final_count);
       ("Total removed", total_removed)]
    else [] in
  Ok (out, df).

Lemma clean_eq argsort df verbose :
  clean argsort df verbose = finish argsort verbose (len df) (prepared df).
Proof. unfold clean, finish, prepared. cbv zeta. reflexivity. Qed.

(** The columns of the output: the schema columns present in the input, in
    schema order, and the label. *)
Definition out_columns (C : list string) : list string :=
  let keep := filter (λ c, c ∈ C) COLS_TO_KEEP in
  if decide (LABEL ∈ keep) then keep else keep ++ [LABEL].

(** Whether a row carries a caret marker in a Text, Nutrient or Tag cell of
    the input. *)
Definition anomaly (C : list string) (r : Row) : bool :=
  existsb (λ col, bool_decide (col ∈ C) && has_caret (get r col))
          (TEXT_COLS ++ NUTRIENT_COLS ++ TAG_COLS).

(** The value [clean] gives to column [c] of input row [r]. *)
Definition cleaned_cell (C : list string) (r : Row) (c : string) : cell :=
  if decide (c = LABEL) then Num (Fin (Z.b2z (anomaly C r)) 0)
  else if decide (c ∈ ID_COL ++ TEXT_COLS) then Series.astype_string (get r c)
  else if decide (c ∈ NUTRIENT_COLS) then nutrient_value (get r c)
  else bool_value (get r c).

Definition prepare_row (C : list string) (r : Row) : Row :=
  mkRow (index r) (list_to_map ((λ c, (c, cleaned_cell C r c)) <$> out_columns C)).

Lemma lookup_list_to_map_fn (f : string -> cell) (l : list string) c :
  (list_to_map ((λ c, (c, f c)) <$> l) : gmap string cell) !! c
  = if decide (c ∈ l) then Some (f c) else None.
Proof.
  induction l as [|x l IH].
  - rewrite fmap_nil, list_to_map_nil, lookup_empty.
    destruct (decide (c ∈ [])) as [H|]; [|done].
    by apply elem_of_nil in H.
  - rewrite fmap_cons, list_to_map_cons.
    destruct (decide (c = x)) as [->|Hne].
    + rewrite lookup_insert_eq. destruct (decide (x ∈ x :: l)) as [|H]; [done|].
      exfalso. apply H. left.
    + rewrite lookup_insert_ne by done. rewrite IH.
      destruct (decide (c ∈ l)), (decide (c ∈ x :: l)) as [H|H]; try done.
      * exfalso. apply H. by right.
      * apply elem_of_cons in H as [?|?]; done.
Qed.

Lemma group_facts c :
  (c ∈ ID_COL ++ TEXT_COLS →
     (c ∉ NUTRIENT_COLS) ∧ (c ∉ TAG_COLS ++ FLAG_COLS) ∧ c ≠ LABEL)
  ∧ (c ∈ NUTRIENT_COLS → (c ∉ TAG_COLS ++ FLAG_COLS) ∧ c ≠ LABEL)
  ∧ (c ∈ TAG_COLS ++ FLAG_COLS → c ≠ LABEL)
  ∧ (c ∈ TEXT_COLS → c ∈ ID_COL ++ TEXT_COLS)
  ∧ (c ∈ TAG_COLS → c ∈ TAG_COLS ++ FLAG_COLS)
  ∧ (c ∈ TEXT_COLS ++ NUTRIENT_COLS ++ TAG_COLS ↔
       c ∈ TEXT_COLS ∨ c ∈ NUTRIENT_COLS ∨ c ∈ TAG_COLS)
  ∧ (c ∈ TEXT_COLS ∨ c ∈ NUTRIENT_COLS ∨ c ∈ TAG_COLS → c ∈ COLS_TO_KEEP)
  ∧ (c ∈ COLS_TO_KEEP ↔
       c ∈ ID_COL ++ TEXT_COLS ∨ c ∈ NUTRIENT_COLS
       ∨ c ∈ TAG_COLS ++ FLAG_COLS ∨ c = LABEL).
Proof.
  destruct groups_disjoint as (H1 & H2 & H3).
  rewrite Forall_forall in H1, H2, H3.
  pose proof (COLS_TO_KEEP_groups c) as HK.
  split_and!; try done; try (by auto).
  - intros H. apply elem_of_app. by right.
  - intros H. apply elem_of_app. by left.
  - rewrite !elem_of_app. tauto.
  - intros H. apply HK. rewrite !elem_of_app in *. tauto.
Qed.

Lemma elem_of_keep (C : list string) c :
  c ∈ filter (λ c, c ∈ C) COLS_TO_KEEP ↔ c ∈ COLS_TO_KEEP ∧ c ∈ C.
Proof. rewrite list_elem_of_filter. tauto. Qed.

Lemma elem_of_out_columns (C : list string) c :
  c ∈ out_columns C ↔ (c ∈ COLS_TO_KEEP ∧ c ∈ C) ∨ c = LABEL.
Proof.
  unfold out_columns.
  destruct (decide (LABEL ∈ filter (λ c, c ∈ C) COLS_TO_KEEP)) as [H|H].
  - rewrite elem_of_keep. split; [tauto|]. intros [?| ->]; [done|].
    by apply elem_of_keep.
  - rewrite elem_of_app, elem_of_keep, list_elem_of_singleton. tauto.
Qed.

Lemma has_caret_astype_string c : has_caret (Series.astype_string c) = has_caret c.
Proof. by destruct c. Qed.

Lemma row_eq r1 r2 : index r1 = index r2 → cells r1 = cells r2 → r1 = r2.
Proof. destruct r1, r2; simpl; by intros -> ->. Qed.

Lemma NoDup_groups :
  NoDup (ID_COL ++ TEXT_COLS) ∧ NoDup NUTRIENT_COLS ∧ NoDup (TAG_COLS ++ FLAG_COLS)
  ∧ NoDup (TEXT_COLS ++ NUTRIENT_COLS ++ TAG_COLS).
Proof. apply (bool_decide_unpack _). vm_compute. exact I. Qed.

Section prepare.
Variable C : list string.
Variable r : Row.

Let K := filter (λ c, c ∈ C) COLS_TO_KEEP.
Let K' := out_columns C.
Let r1 := mkRow (index r) (list_to_map ((λ c, (c, get r c)) <$> K)).
Let r2 := row_loop K (ID_COL ++ TEXT_COLS) id
            (λ col r, Series.astype_string (get r col)) r1.
Let r3 := set LABEL (Num (Fin 0 0)) r2.
Let r4 := row_loop K' (TEXT_COLS ++ NUTRIENT_COLS ++ TAG_COLS) (λ _, LABEL)
            (λ col r, Series.int_or (get r LABEL)
                        (Series.astype_int (has_caret (get r col)))) r3.
Let r5 := row_loop K' NUTRIENT_COLS id (λ col r, nutrient_value (get r col)) r4.
Let r6 := row_loop K' (TAG_COLS ++ FLAG_COLS) id
            (λ col r, bool_value (get r col)) r5.

Local Opaque ID_COL TEXT_COLS NUTRIENT_COLS TAG_COLS FLAG_COLS COLS_TO_KEEP LABEL.

Ltac cols c :=
  pose proof (group_facts c);
  pose proof (elem_of_keep C c);
  pose proof (elem_of_out_columns C c);
  repeat case_decide; try done; try tauto.

Lemma lookup_r1 c :
  cells r1 !! c = if decide (c ∈ K) then Some (get r c) else None.
Proof. apply lookup_list_to_map_fn. Qed.

Lemma lookup_r2 c :
  cells r2 !! c
  = if decide (c ∈ K)
    then Some (if decide (c ∈ ID_COL ++ TEXT_COLS)
               then Series.astype_string (get r c) else get r c)
    else None.
Proof.
  unfold r2. rewrite lookup_row_loop_map by apply NoDup_groups.
  unfold get at 1. rewrite !lookup_r1. cols c.
Qed.

Lemma lookup_r3 c :
  cells r3 !! c
  = if decide (c = LABEL) then Some (Num (Fin 0 0)) else cells r2 !! c.
Proof. apply lookup_set. Qed.

Lemma LABEL_not_caret_col : LABEL ∉ TEXT_COLS ++ NUTRIENT_COLS ++ TAG_COLS.
Proof. pose proof (group_facts LABEL). tauto. Qed.

Lemma lookup_r4 c :
  cells r4 !! c
  = if decide (c = LABEL) then Some (Num (Fin (Z.b2z (anomaly C r)) 0))
    else cells r2 !! c.
Proof.
  unfold r4.
  rewrite (lookup_row_loop_label _ _ _ _ false); [|apply LABEL_not_caret_col|].
  - rewrite lookup_r3. destruct (decide (c = LABEL)); [|done].
    do 4 f_equal. cbn [orb]. unfold anomaly. apply existsb_ext_in.
    intros col Hcol.
    assert (Hne : col ≠ LABEL) by (pose proof (group_facts col); tauto).
    assert (HK' : col ∈ K' ↔ col ∈ C).
    { unfold K'. rewrite elem_of_out_columns. pose proof (group_facts col). tauto. }
    destruct (decide (col ∈ C)) as [HC|HC].
    + rewrite !bool_decide_eq_true_2 by tauto.
      cbn [andb]. unfold get at 1. rewrite lookup_r3, lookup_r2.
      assert (col ∈ K) by (apply elem_of_keep; pose proof (group_facts col); tauto).
      rewrite decide_False, decide_True by done. cbn [default].
      destruct (decide _); [|done]. apply has_caret_astype_string.
    + rewrite !bool_decide_eq_false_2 by tauto. done.
  - rewrite lookup_r3. by rewrite decide_True.
Qed.

Lemma lookup_r5 c :
  cells r5 !! c
  = if decide (c ∈ K')
    then Some (if decide (c = LABEL) then Num (Fin (Z.b2z (anomaly C r)) 0)
               else if decide (c ∈ ID_COL ++ TEXT_COLS)
                    then Series.astype_string (get r c)
               else if decide (c ∈ NUTRIENT_COLS) then nutrient_value (get r c)
               else get r c)
    else None.
Proof.
  unfold r5. rewrite lookup_row_loop_map by apply NoDup_groups.
  unfold get at 1. rewrite !lookup_r4, !lookup_r2. fold K'. cols c.
Qed.

Lemma lookup_r6 c :
  cells r6 !! c
  = if decide (c ∈ K') then Some (cleaned_cell C r c) else None.
Proof.
  unfold r6. rewrite lookup_row_loop_map by apply NoDup_groups.
  unfold get at 1. rewrite !lookup_r5. unfold cleaned_cell. cols c.
Qed.

Lemma prepare_row_eq : r6 = prepare_row C r.
Proof.
  apply row_eq.
  - unfold r6, r5, r4, r3, r2, r1. rewrite !index_row_loop, index_set, index_row_loop. done.
  - apply map_eq. intros c. rewrite lookup_r6. unfold prepare_row. cbn [cells].
    by rewrite lookup_list_to_map_fn.
Qed.

End prepare.

Lemma assign_eq col f df :
  assign col f df
  = mkDF (if decide (col ∈ columns df) then columns df else columns df ++ [col])
         ((λ r, set col (f r) r) <$> rows df).
Proof. reflexivity. Qed.

Lemma prepared_eq df :
  prepared df = mkDF (out_columns (columns df)) (prepare_row (columns df) <$> rows df).
Proof.
  unfold prepared. destruct df as [C rs]. cbn [columns rows]. cbv zeta.
  set (K := filter (λ c, c ∈ C) COLS_TO_KEEP).
  unfold select. cbn [columns rows].
  rewrite (for_present_assign (ID_COL ++ TEXT_COLS) (λ c, c)
             (λ col r, Series.astype_string (get r col))) by done.
  cbn [columns rows].
  rewrite (assign_eq "label_is_anomaly" (λ _, Num (Fin 0 0))).
  cbn [columns rows].
  change "label_is_anomaly" with LABEL.
  change (if decide (LABEL ∈ K) then K else K ++ [LABEL]) with (out_columns C).
  rewrite (for_present_assign (TEXT_COLS ++ NUTRIENT_COLS ++ TAG_COLS) (λ _, LABEL)
             (λ col r, Series.int_or (get r LABEL)
                         (Series.astype_int (has_caret (get r col))))); cycle 1.
  { intros col _ _. cbn [columns]. apply elem_of_out_columns. by right. }
  cbn [columns rows].
  rewrite (for_present_assign NUTRIENT_COLS (λ c, c)
             (λ col r, nutrient_value (get r col))) by done.
  cbn [columns rows].
  rewrite (for_present_assign (TAG_COLS ++ FLAG_COLS) (λ c, c)
             (λ col r, bool_value (get r col))) by done.
  cbn [columns rows]. f_equal.
  rewrite <- !list_fmap_compose. apply list_fmap_ext. intros i r _.
  cbn [compose]. rewrite <- prepare_row_eq. done.
Qed.

(** ** String order *)

Lemma ltb_lt a b : PyStr.ltb a b = true ↔ String_as_OT.lt a b.
Proof.
  unfold PyStr.ltb, String_as_OT.lt.
  destruct (String_as_OT.compare a b); split; congruence.
Qed.

Lemma lt_irrefl a : ¬ String_as_OT.lt a a.
Proof. apply (StrictOrder_Irreflexive (R := String_as_OT.lt)). Qed.

Lemma lt_trans a b c :
  String_as_OT.lt a b → String_as_OT.lt b c → String_as_OT.lt a c.
Proof. apply (StrictOrder_Transitive (R := String_as_OT.lt)). Qed.

Lemma lt_trichotomy a b :
  String_as_OT.lt a b ∨ a = b ∨ String_as_OT.lt b a.
Proof. destruct (String_as_OT.compare_spec a b); auto. Qed.

Lemma leb_le a b : PyStr.leb a b = true ↔ String_as_OT.lt a b ∨ a = b.
Proof.
  unfold PyStr.leb. rewrite negb_true_iff, <- not_true_iff_false, ltb_lt.
  destruct (lt_trichotomy a b) as [H|[->|H]].
  - split; [auto|]. intros _ H'. apply (lt_irrefl a). by eapply lt_trans.
  - split; [auto|]. intros _. apply lt_irrefl.
  - split; [done|]. intros [H'| ->].
    + exfalso. apply (lt_irrefl a). by eapply lt_trans.
    + exfalso. by apply (lt_irrefl b).
Qed.

Lemma leb_refl a : PyStr.leb a a = true.
Proof. apply leb_le. by right. Qed.

Lemma leb_trans a b c :
  PyStr.leb a b = true → PyStr.leb b c = true → PyStr.leb a c = true.
Proof.
  rewrite !leb_le. intros [H1| ->] [H2| ->]; auto.
  left. by eapply lt_trans.
Qed.

Lemma leb_antisym a b : PyStr.leb a b = true → PyStr.leb b a = true → a = b.
Proof.
  rewrite !leb_le. intros [H1| ->] [H2| H2]; auto.
  exfalso. apply (lt_irrefl a). by eapply lt_trans.
Qed.

Lemma leb_total a b : PyStr.leb a b = true ∨ PyStr.leb b a = true.
Proof. rewrite !leb_le. destruct (lt_trichotomy a b) as [?|[?|?]]; auto. Qed.

Lemma ltb_false_leb a b : PyStr.ltb a b = false ↔ PyStr.leb b a = true.
Proof. unfold PyStr.leb. by rewrite negb_true_iff. Qed.

(** ** The contract of [argsort] *)

Definition key_le (keys : list string) (i j : nat) : Prop :=
  PyStr.leb (nth i keys "") (nth j keys "") = true.

(** What every sorting algorithm of numpy gives: the positions, rearranged
    so that the keys ascend. *)
Record ArgsortSpec (argsort : list string -> list nat) : Prop := {
  argsort_perm : ∀ keys, argsort keys ≡ₚ seq 0 (length keys);
  argsort_sorted : ∀ keys, StronglySorted (key_le keys) (argsort keys)
}.

Definition key_lt_stable (keys : list string) (i j : nat) : Prop :=
  PyStr.ltb (nth i keys "") (nth j keys "") = true
  ∨ (nth i keys "" = nth j keys "" ∧ (i < j)%nat).

(** A stable sort moreover keeps equal keys in their original order. *)
Record StableArgsort (argsort : list string -> list nat) : Prop := {
  stable_perm : ∀ keys, argsort keys ≡ₚ seq 0 (length keys);
  stable_sorted : ∀ keys, StronglySorted (key_lt_stable keys) (argsort keys)
}.

Lemma StronglySorted_impl {A} (R R' : relation A) l :
  (∀ x y, x ∈ l → y ∈ l → R x y → R' x y) →
  StronglySorted R l → StronglySorted R' l.
Proof.
  intros HR H. induction H as [|x l Hl IH Hx]; constructor.
  - apply IH. intros; apply HR; by try right.
  - rewrite Forall_forall in *. intros y Hy. apply HR; [left|by right|auto].
Qed.

Lemma StableArgsort_spec argsort : StableArgsort argsort → ArgsortSpec argsort.
Proof.
  intros [Hp Hs]. split; [done|]. intros keys.
  eapply StronglySorted_impl; [|apply Hs].
  intros i j _ _ [H|[H _]]; unfold key_le.
  - apply leb_le. left. by apply ltb_lt.
  - rewrite H. apply leb_refl.
Qed.

Lemma StronglySorted_Forall2 {A B} (P : A -> B -> Prop) (R : relation A)
    (R' : relation B) l l' :
  (∀ i j a b, P i a → P j b → R i j → R' a b) →
  Forall2 P l l' → StronglySorted R l → StronglySorted R' l'.
Proof.
  intros HR HF. induction HF as [|i a l l' Hia HF IH]; intros Hs; [constructor|].
  apply StronglySorted_inv in Hs as [Hs Hi]. constructor; [by apply IH|].
  clear IH Hs. induction HF as [|j b l l' Hjb HF IH]; [constructor|].
  apply Forall_cons in Hi as [Hij Hi]. constructor; [by eapply HR|by apply IH].
Qed.

Lemma omap_lookup_seq_app {A} (pre l : list A) :
  omap (λ i, (pre ++ l) !! i) (seq (length pre) (length l)) = l.
Proof.
  revert pre. induction l as [|a l IH]; intros pre; [done|].
  cbn [length seq omap list_omap].
  rewrite list_lookup_middle by done. f_equal.
  specialize (IH (pre ++ [a])).
  rewrite length_app, Nat.add_1_r, <- app_assoc in IH. exact IH.
Qed.

Lemma omap_lookup_seq {A} (l : list A) :
  omap (λ i, l !! i) (seq 0 (length l)) = l.
Proof. apply (omap_lookup_seq_app [] l). Qed.

Lemma omap_Forall2_lookup {A} (l : list A) idxs rs :
  Forall2 (λ i r, l !! i = Some r) idxs rs → omap (λ i, l !! i) idxs = rs.
Proof. induction 1 as [|i r idxs rs Hi _ IH]; [done|]. cbn. by rewrite Hi, IH. Qed.

Lemma take_Permutation {A} (l : list A) idxs rs :
  idxs ≡ₚ seq 0 (length l) →
  Forall2 (λ i r, l !! i = Some r) idxs rs → rs ≡ₚ l.
Proof.
  intros Hp HF. rewrite <- (omap_Forall2_lookup _ _ _ HF).
  rewrite Hp. by rewrite omap_lookup_seq.
Qed.

Lemma take_is_Some {A} (l : list A) idxs :
  idxs ≡ₚ seq 0 (length l) → is_Some (mapM (λ i, l !! i) idxs).
Proof.
  intros Hp. apply mapM_is_Some, Forall_forall. intros i Hi.
  cbn [compose]. apply lookup_lt_is_Some_2.
  rewrite Hp in Hi. apply elem_of_seq in Hi. lia.
Qed.

(** ** [keep_first] *)

Section keep_first.
Variable key : Row -> cell.

Lemma keep_first_sublist seen l : keep_first key seen l `sublist_of` l.
Proof.
  revert seen. induction l as [|r l IH]; intros seen; cbn; [constructor|].
  destruct (decide (key r ∈ seen)).
  - by apply sublist_cons.
  - by apply sublist_skip.
Qed.

Lemma keep_first_not_seen seen l r :
  r ∈ keep_first key seen l → key r ∉ seen.
Proof.
  revert seen. induction l as [|x l IH]; intros seen; cbn.
  - by intros ?%elem_of_nil.
  - destruct (decide (key x ∈ seen)) as [|Hx]; [by apply IH|].
    intros [->|H]%elem_of_cons; [done|].
    apply IH in H. intros ?. apply H. by right.
Qed.

Lemma keep_first_NoDup seen l : NoDup (key <$> keep_first key seen l).
Proof.
  revert seen. induction l as [|x l IH]; intros seen; cbn; [constructor|].
  destruct (decide (key x ∈ seen)) as [|Hx]; [by apply IH|].
  cbn. constructor; [|by apply IH].
  intros (r & Hr & Hin)%list_elem_of_fmap.
  apply keep_first_not_seen in Hin. apply Hin. rewrite Hr. left.
Qed.

Lemma keep_first_covers seen l r :
  r ∈ l → key r ∉ seen → ∃ r', r' ∈ keep_first key seen l ∧ key r' = key r.
Proof.
  revert seen. induction l as [|x l IH]; intros seen; cbn.
  - by intros ?%elem_of_nil.
  - intros [->|Hr]%elem_of_cons Hs.
    + rewrite decide_False by done. exists x. split; [left|done].
    + destruct (decide (key x ∈ seen)) as [|Hx]; [by apply IH|].
      destruct (decide (key r = key x)) as [Heq|Hne].
      * exists x. split; [left|done].
      * destruct (IH (key x :: seen) Hr) as (r' & ? & ?).
        { by intros [?|?]%elem_of_cons. }
        exists r'. split; [by right|done].
Qed.

(** The row kept for a key is the first row of the list with that key. *)
Lemma keep_first_first seen l r :
  r ∈ keep_first key seen l →
  ∃ l1 l2, l = l1 ++ r :: l2 ∧ Forall (λ r', key r' ≠ key r) l1.
Proof.
  revert seen. induction l as [|x l IH]; intros seen; cbn.
  - by intros ?%elem_of_nil.
  - destruct (decide (key x ∈ seen)) as [Hx|Hx].
    + intros Hr. pose proof (keep_first_not_seen _ _ _ Hr) as Hn.
      destruct (IH _ Hr) as (l1 & l2 & -> & Hl1).
      exists (x :: l1), l2. split; [done|]. constructor; [|done].
      intros Heq. apply Hn. by rewrite <- Heq.
    + intros [->|Hr]%elem_of_cons.
      * exists [], l. split; [done|constructor].
      * pose proof (keep_first_not_seen _ _ _ Hr) as Hn.
        destruct (IH _ Hr) as (l1 & l2 & -> & Hl1).
        exists (x :: l1), l2. split; [done|]. constructor; [|done].
        intros Heq. apply Hn. rewrite <- Heq. left.
Qed.

Lemma keep_first_id seen l :
  NoDup (key <$> l) → (∀ r, r ∈ l → key r ∉ seen) → keep_first key seen l = l.
Proof.
  revert seen. induction l as [|x l IH]; intros seen Hnd Hs; cbn; [done|].
  cbn in Hnd. apply NoDup_cons in Hnd as [Hx Hnd].
  rewrite decide_False by (apply Hs; left). f_equal. apply IH; [done|].
  intros r Hr [Heq|Hin]%elem_of_cons.
  - apply Hx. rewrite <- Heq. by apply list_elem_of_fmap_2.
  - by apply (Hs r); [right|].
Qed.

End keep_first.

(** ** The second half of [clean] *)

Definition gtin_key (r : Row) : string := str_of (get r "gtin").

(** The rows that pass the identifier filter and the text filter, in the
    order of the input. *)
Definition survivors (df : DataFrame) : list Row :=
  let rs := filter (λ r, forallb (λ c, Series.notna (get r c)) ["gtin"] = true) (rows df) in
  if decide ("ingredients_text" ∈ columns df)
  then filter (λ r, has_ingredients (get r "ingredients_text") = true) rs
  else rs.

Lemma sort_values_ok argsort by_ df :
  ArgsortSpec argsort → by_ ∈ columns df →
  ∃ rs, sort_values argsort by_ df = Ok (mkDF (columns df) rs)
        ∧ Forall2 (λ i r, rows df !! i = Some r)
                  (argsort ((λ r, str_of (get r by_)) <$> rows df)) rs.
Proof.
  intros [Hp Hs] Hby. unfold sort_values. rewrite decide_True by done.
  set (keys := (λ r, str_of (get r by_)) <$> rows df).
  destruct (take_is_Some (rows df) (argsort keys)) as [rs Hrs].
  { rewrite Hp. unfold keys. by rewrite length_fmap. }
  rewrite Hrs. exists rs. split; [done|]. by apply mapM_Some.
Qed.

Lemma finish_ok argsort verbose n df :
  ArgsortSpec argsort → "gtin" ∈ columns df →
  ∃ out rs,
    finish argsort verbose n df
    = Ok (out, mkDF (columns df) (keep_first (λ r, get r "gtin") [] rs))
    ∧ Forall2 (λ i r, survivors df !! i = Some r)
              (argsort (gtin_key <$> survivors df)) rs.
Proof.
  intros Hspec Hg. unfold finish, dropna.
  rewrite filter_cons, decide_False, filter_nil by (by intros ?).
  cbn [mbind result_bind].
  set (df1 := where_ _ df).
  set (p := if decide ("ingredients_text" ∈ columns df1) then _ else _).
  assert (Hp : columns p.1 = columns df ∧ rows p.1 = survivors df).
  { unfold p, survivors. cbn [columns df1 where_].
    destruct (decide ("ingredients_text" ∈ columns df)); done. }
  destruct p as [df2 k]. cbn [fst] in Hp. destruct Hp as [Hc Hr].
  destruct (sort_values_ok argsort "gtin" df2 Hspec) as (rs & Hsort & HF).
  { by rewrite Hc. }
  rewrite Hsort. cbn [mbind result_bind]. unfold drop_duplicates.
  cbn [columns rows]. rewrite decide_True by (by rewrite Hc).
  cbn [mbind result_bind]. eexists _, rs. rewrite Hc. split; [done|].
  rewrite Hr in HF. done.
Qed.

Lemma finish_no_gtin argsort verbose n df :
  "gtin" ∉ columns df → finish argsort verbose n df = Raise (KeyError ["gtin"]).
Proof.
  intros Hg. unfold finish, dropna.
  by rewrite filter_cons, decide_True, filter_nil by done.
Qed.

(** ** [clean] as a whole *)

Lemma gtin_in_out_columns C : "gtin" ∈ out_columns C ↔ "gtin" ∈ C.
Proof.
  rewrite elem_of_out_columns. split.
  - intros [[_ ?]|?]; done.
  - intros H. left. split; [|done]. apply (bool_decide_unpack _). vm_compute. exact I.
Qed.

Lemma ingredients_in_out_columns C :
  "ingredients_text" ∈ out_columns C ↔ "ingredients_text" ∈ C.
Proof.
  rewrite elem_of_out_columns. split.
  - intros [[_ ?]|?]; done.
  - intros H. left. split; [|done]. apply (bool_decide_unpack _). vm_compute. exact I.
Qed.

Lemma clean_no_gtin argsort verbose df :
  "gtin" ∉ columns df → clean argsort df verbose = Raise (KeyError ["gtin"]).
Proof.
  intros H. rewrite clean_eq. apply finish_no_gtin.
  rewrite prepared_eq. cbn [columns]. by rewrite gtin_in_out_columns.
Qed.

Lemma clean_ok argsort verbose df :
  ArgsortSpec argsort → "gtin" ∈ columns df →
  ∃ out rs,
    clean argsort df verbose
    = Ok (out, mkDF (out_columns (columns df)) (keep_first (λ r, get r "gtin") [] rs))
    ∧ Forall2 (λ i r, survivors (prepared df) !! i = Some r)
              (argsort (gtin_key <$> survivors (prepared df))) rs.
Proof.
  intros Hspec Hg. rewrite clean_eq.
  destruct (finish_ok argsort verbose (len df) (prepared df) Hspec)
    as (out & rs & Heq & HF).
  { rewrite prepared_eq. cbn [columns]. by rewrite gtin_in_out_columns. }
  exists out, rs. split; [|done]. rewrite Heq. by rewrite prepared_eq at 1.
Qed.

Lemma sorted_Permutation argsort df rs :
  ArgsortSpec argsort →
  Forall2 (λ i r, survivors df !! i = Some r) (argsort (gtin_key <$> survivors df)) rs →
  rs ≡ₚ survivors df.
Proof.
  intros [Hp _] HF. eapply take_Permutation; [|done].
  rewrite Hp. by rewrite length_fmap.
Qed.

Lemma get_prepare_row C r c :
  get (prepare_row C r) c
  = if decide (c ∈ out_columns C) then cleaned_cell C r c else NaN.
Proof.
  unfold get, prepare_row. cbn [cells]. rewrite lookup_list_to_map_fn.
  by destruct (decide _).
Qed.

Lemma elem_of_survivors df r :
  r ∈ survivors df ↔
  r ∈ rows df ∧ Series.notna (get r "gtin") = true
  ∧ ("ingredients_text" ∈ columns df → has_ingredients (get r "ingredients_text") = true).
Proof.
  unfold survivors. destruct (decide ("ingredients_text" ∈ columns df)) as [Hi|Hi].
  - rewrite !list_elem_of_filter. cbn [forallb]. rewrite andb_true_r. tauto.
  - rewrite !list_elem_of_filter. cbn [forallb]. rewrite andb_true_r. tauto.
Qed.

(** Every row of the output is the cleaned form of an input row that passes
    the two filters, and has its index label. *)
Lemma clean_row_source argsort verbose df out df' r' :
  ArgsortSpec argsort →
  clean argsort df verbose = Ok (out, df') →
  r' ∈ rows df' →
  ∃ r, r ∈ rows df ∧ r' = prepare_row (columns df) r
       ∧ Series.notna (get r' "gtin") = true
       ∧ ("ingredients_text" ∈ columns df →
          has_ingredients (get r' "ingredients_text") = true).
Proof.
  intros Hspec Hc Hr'.
  destruct (decide ("gtin" ∈ columns df)) as [Hg|Hg]; cycle 1.
  { by rewrite clean_no_gtin in Hc. }
  destruct (clean_ok argsort verbose df Hspec Hg) as (out' & rs & Heq & HF).
  rewrite Heq in Hc. injection Hc as <- <-. cbn [rows] in Hr'.
  eapply elem_of_sublist in Hr'; [|apply keep_first_sublist].
  rewrite (sorted_Permutation _ _ _ Hspec HF) in Hr'.
  apply elem_of_survivors in Hr' as (Hin & Hn & Hi).
  rewrite prepared_eq in Hin, Hi. cbn [rows columns] in Hin, Hi.
  apply list_elem_of_fmap in Hin as (r & -> & Hr).
  exists r. split_and!; try done.
  intros H. apply Hi. by apply ingredients_in_out_columns.
Qed.

(** ** Insertion sort is a stable [argsort] *)

Lemma insert_pos_Permutation keys i s : insert_pos keys i s ≡ₚ i :: s.
Proof.
  induction s as [|j t IH]; cbn; [done|].
  destruct (PyStr.ltb _ _); [done|]. rewrite IH. apply Permutation_swap.
Qed.

Lemma insert_pos_sorted keys i s :
  StronglySorted (key_lt_stable keys) s → (∀ j, j ∈ s → (j < i)%nat) →
  StronglySorted (key_lt_stable keys) (insert_pos keys i s).
Proof.
  induction s as [|j t IH]; intros Hs Hlt; cbn.
  - repeat constructor.
  - apply StronglySorted_inv in Hs as [Ht Hj].
    destruct (PyStr.ltb (nth i keys "") (nth j keys "")) eqn:Hij.
    + constructor; [by constructor|]. constructor; [by left|].
      rewrite Forall_forall in *. intros x Hx. left.
      apply ltb_lt. apply ltb_lt in Hij.
      destruct (Hj x Hx) as [H|[H _]].
      * apply ltb_lt in H. by eapply lt_trans.
      * by rewrite <- H.
    + constructor.
      * apply IH; [done|]. intros x Hx. apply Hlt. by right.
      * rewrite insert_pos_Permutation. constructor; [|done].
        apply ltb_false_leb, leb_le in Hij as [H|H].
        -- left. by apply ltb_lt.
        -- right. split; [done|]. apply Hlt. left.
Qed.

Lemma foldl_insert_pos_Permutation keys l acc :
  foldl (λ acc i, insert_pos keys i acc) acc l ≡ₚ acc ++ l.
Proof.
  revert acc. induction l as [|i l IH]; intros acc; cbn.
  - by rewrite app_nil_r.
  - rewrite IH, insert_pos_Permutation. apply Permutation_middle.
Qed.

Lemma foldl_insert_pos_sorted keys l acc :
  StronglySorted (key_lt_stable keys) acc →
  (∀ j i, j ∈ acc → i ∈ l → (j < i)%nat) →
  StronglySorted lt l →
  StronglySorted (key_lt_stable keys) (foldl (λ acc i, insert_pos keys i acc) acc l).
Proof.
  revert acc. induction l as [|i l IH]; intros acc Hs Hlt Hl; cbn; [done|].
  apply StronglySorted_inv in Hl as [Hl Hi]. rewrite Forall_forall in Hi.
  apply IH; [| |done].
  - apply insert_pos_sorted; [done|]. intros j Hj. apply Hlt; [done|left].
  - intros j x Hj Hx. rewrite insert_pos_Permutation in Hj.
    apply elem_of_cons in Hj as [->|Hj]; [by apply Hi|].
    apply Hlt; [done|by right].
Qed.

Lemma StronglySorted_seq j n : StronglySorted lt (seq j n).
Proof.
  revert j. induction n as [|n IH]; intros j; cbn; constructor; [apply IH|].
  apply Forall_forall. intros x Hx%elem_of_seq. lia.
Qed.

Lemma insertion_argsort_stable : StableArgsort insertion_argsort.
Proof.
  split; intros keys; unfold insertion_argsort.
  - by rewrite foldl_insert_pos_Permutation.
  - apply foldl_insert_pos_sorted; [constructor| |apply StronglySorted_seq].
    by intros j i ?%elem_of_nil.
Qed.

Lemma insertion_argsort_spec : ArgsortSpec insertion_argsort.
Proof. apply StableArgsort_spec, insertion_argsort_stable. Qed.

(** ** Scenario tables *)

Definition row_of (i : nat) (l : list (string * cell)) : Row :=
  mkRow i (list_to_map l).

(** The scenario of the specification: one row with a caret in the text and
    in the nutrient. *)
Definition scenario_df : DataFrame :=
  mkDF ["gtin"; "ingredients_text"; "calories"]
       [row_of 0 [("gtin", Str "123"); ("ingredients_text", Str "milk^");
                  ("calories", Str "50^")]].

Definition scenario_row : Row :=
  row_of 0 [("gtin", Str "123"); ("ingredients_text", Str "milk^");
            ("calories", Num (Fin 50 0)); ("label_is_anomaly", Num (Fin 1 0))].

Definition scenario_result : DataFrame :=
  mkDF ["gtin"; "ingredients_text"; "calories"; "label_is_anomaly"] [scenario_row].

Definition scenario_stdout : stdout :=
  [("Initial rows", 1); ("Removed (no GTIN)", 0);
   ("Removed (empty ingredients_text)", 0); ("Removed (duplicate GTINs)", 0);
   ("Final rows", 1); ("Total removed", 0)].

Lemma scenario_clean :
  clean insertion_argsort scenario_df true = Ok (scenario_stdout, scenario_result).
Proof. vm_compute. reflexivity. Qed.

(** ** C1: the anomaly label *)

Lemma has_caret_unfold c :
  has_caret c = PyStr.endswith (PyStr.strip (str_of c)) "^".
Proof. reflexivity. Qed.

Lemma anomaly_true C r :
  anomaly C r = true ↔
  ∃ c, c ∈ TEXT_COLS ++ NUTRIENT_COLS ++ TAG_COLS ∧ c ∈ C
       ∧ PyStr.endswith (PyStr.strip (str_of (get r c))) "^" = true.
Proof.
  unfold anomaly. rewrite existsb_exists. split.
  - intros (c & Hc & H). apply andb_true_iff in H as [H1 H2].
    exists c. split_and!; [by apply list_elem_of_In|by apply bool_decide_eq_true in H1|done].
  - intros (c & Hc & HC & H). exists c. split; [by apply list_elem_of_In|].
    apply andb_true_iff. split; [by apply bool_decide_eq_true|done].
Qed.

Lemma get_label_prepare_row C r :
  get (prepare_row C r) "label_is_anomaly" = Num (Fin (Z.b2z (anomaly C r)) 0).
Proof.
  rewrite get_prepare_row. rewrite decide_True by (apply elem_of_out_columns; by right).
  unfold cleaned_cell. by rewrite decide_True.
Qed.

(** C1.  In the table [clean] returns, every row is the cleaned form of the
    input row with its index label, and its [label_is_anomaly] is 1 exactly
    when one of the raw Text, Nutrient or Tag cells of that input row,
    rendered as a string and stripped of surrounding whitespace, ends with
    a caret; otherwise it is 0. *)
Theorem anomaly_label_correct argsort df verbose out df' r' :
  ArgsortSpec argsort →
  clean argsort df verbose = Ok (out, df') →
  r' ∈ rows df' →
  ∃ r, r ∈ rows df ∧ index r = index r' ∧
    let marked :=
      ∃ c, c ∈ TEXT_COLS ++ NUTRIENT_COLS ++ TAG_COLS ∧ c ∈ columns df
           ∧ PyStr.endswith (PyStr.strip (str_of (get r c))) "^" = true in
    (get r' "label_is_anomaly" = Num (Fin 1 0) ↔ marked)
    ∧ (get r' "label_is_anomaly" = Num (Fin 0 0) ↔ ¬ marked).
Proof.
  intros Hspec Hc Hr'.
  destruct (clean_row_source _ _ _ _ _ _ Hspec Hc Hr') as (r & Hr & -> & _).
  exists r. split_and!; [done|done|]. cbn zeta.
  rewrite get_label_prepare_row, <- anomaly_true.
  destruct (anomaly (columns df) r); cbn; split; split; try done.
  all: intros H; exfalso; auto.
Qed.

Lemma anomaly_label_correct_witness :
  ArgsortSpec insertion_argsort
  ∧ clean insertion_argsort scenario_df true = Ok (scenario_stdout, scenario_result)
  ∧ scenario_row ∈ rows scenario_result
  ∧ ∃ r, r ∈ rows scenario_df ∧ index r = index scenario_row ∧
      let marked :=
        ∃ c, c ∈ TEXT_COLS ++ NUTRIENT_COLS ++ TAG_COLS ∧ c ∈ columns scenario_df
             ∧ PyStr.endswith (PyStr.strip (str_of (get r c))) "^" = true in
      (get scenario_row "label_is_anomaly" = Num (Fin 1 0) ↔ marked)
      ∧ (get scenario_row "label_is_anomaly" = Num (Fin 0 0) ↔ ¬ marked).
Proof.
  assert (H1 : ArgsortSpec insertion_argsort) by exact insertion_argsort_spec.
  assert (H2 : clean insertion_argsort scenario_df true
               = Ok (scenario_stdout, scenario_result)) by (vm_compute; reflexivity).
  assert (H3 : scenario_row ∈ rows scenario_result) by (cbn; left).
  split_and!; [exact H1|exact H2|exact H3|].
  exact (anomaly_label_correct insertion_argsort scenario_df true
           scenario_stdout scenario_result scenario_row H1 H2 H3).
Defined.

(** ** C2: nutrient cells *)

Lemma get_cleaned (C : list string) r c :
  c ∈ COLS_TO_KEEP → c ∈ C → get (prepare_row C r) c = cleaned_cell C r c.
Proof.
  intros H1 H2. rewrite get_prepare_row.
  rewrite decide_True; [done|]. apply elem_of_out_columns. by left.
Qed.

Lemma cleaned_cell_nutrient C r c :
  c ∈ NUTRIENT_COLS → cleaned_cell C r c = nutrient_value (get r c).
Proof.
  intros H. unfold cleaned_cell. pose proof (group_facts c).
  repeat case_decide; try done; tauto.
Qed.

Lemma nutrient_value_unfold c :
  nutrient_value c
  = Num (default (Fin (-1) 0)
           (Numeric.parse (PyStr.strip (PyStr.rstrip_chars PyStr.is_caret (str_of c))))).
Proof. reflexivity. Qed.

(** A reading that is not below zero. *)
Definition nonnegative (x : number) : Prop :=
  match x with
  | Fin m _ => 0 <= m
  | Inf neg => neg = false
  end.

Definition negative_df : DataFrame :=
  mkDF ["gtin"; "ingredients_text"; "calories"]
       [row_of 0 [("gtin", Str "7"); ("ingredients_text", Str "salt");
                  ("calories", Str "-5")]].

Definition negative_row : Row :=
  row_of 0 [("gtin", Str "7"); ("ingredients_text", Str "salt");
            ("calories", Num (Fin (-5) 0)); ("label_is_anomaly", Num (Fin 0 0))].

Definition negative_result : DataFrame :=
  mkDF ["gtin"; "ingredients_text"; "calories"; "label_is_anomaly"] [negative_row].

(** C2, as stated, fails: the raw cell "-5" is kept as the reading -5, which
    is neither non-negative nor the sentinel. *)
Lemma negative_reading_kept :
  clean insertion_argsort negative_df true = Ok (scenario_stdout, negative_result)
  ∧ negative_row ∈ rows negative_result
  ∧ "calories" ∈ NUTRIENT_COLS ∧ "calories" ∈ columns negative_df
  ∧ ¬ ∃ x, get negative_row "calories" = Num x
           ∧ (nonnegative x ∨ x = Fin (-1) 0).
Proof.
  split_and!.
  - vm_compute. reflexivity.
  - cbn. left.
  - apply (bool_decide_unpack _). vm_compute. exact I.
  - apply (bool_decide_unpack _). vm_compute. exact I.
  - intros (x & Hx & H). vm_compute in Hx. injection Hx as <-.
    destruct H as [H|H]; [cbn in H; lia|discriminate].
Qed.

(** C2, amended.  In the table [clean] returns, every Nutrient cell of a
    column of the input is a number, never a missing value: the number
    [to_numeric] reads in the raw cell's string once its trailing carets,
    then its surrounding whitespace, are removed, and -1 when that string is
    not a number.  The number read may be negative. *)
Theorem nutrient_parse_or_sentinel argsort df verbose out df' r' :
  ArgsortSpec argsort →
  clean argsort df verbose = Ok (out, df') →
  r' ∈ rows df' →
  ∃ r, r ∈ rows df ∧ index r = index r' ∧
    ∀ c, c ∈ NUTRIENT_COLS → c ∈ columns df →
      Series.isna (get r' c) = false ∧
      match Numeric.parse
              (PyStr.strip (PyStr.rstrip_chars PyStr.is_caret (str_of (get r c)))) with
      | Some x => get r' c = Num x
      | None => get r' c = Num (Fin (-1) 0)
      end.
Proof.
  intros Hspec Hc Hr'.
  destruct (clean_row_source _ _ _ _ _ _ Hspec Hc Hr') as (r & Hr & -> & _).
  exists r. split_and!; [done|done|]. intros c Hn HC.
  rewrite get_cleaned; [|pose proof (group_facts c); tauto|done].
  rewrite cleaned_cell_nutrient, nutrient_value_unfold by done.
  split; [done|]. by destruct (Numeric.parse _).
Qed.

Lemma nutrient_parse_or_sentinel_witness :
  ArgsortSpec insertion_argsort
  ∧ clean insertion_argsort negative_df true = Ok (scenario_stdout, negative_result)
  ∧ negative_row ∈ rows negative_result
  ∧ ∃ r, r ∈ rows negative_df ∧ index r = index negative_row ∧
      ∀ c, c ∈ NUTRIENT_COLS → c ∈ columns negative_df →
        Series.isna (get negative_row c) = false ∧
        match Numeric.parse
                (PyStr.strip (PyStr.rstrip_chars PyStr.is_caret (str_of (get r c)))) with
        | Some x => get negative_row c = Num x
        | None => get negative_row c = Num (Fin (-1) 0)
        end.
Proof.
  assert (H1 : ArgsortSpec insertion_argsort) by exact insertion_argsort_spec.
  assert (H2 : clean insertion_argsort negative_df true
               = Ok (scenario_stdout, negative_result)) by (vm_compute; reflexivity).
  assert (H3 : negative_row ∈ rows negative_result) by (cbn; left).
  split_and!; [exact H1|exact H2|exact H3|].
  exact (nutrient_parse_or_sentinel insertion_argsort negative_df true
           scenario_stdout negative_result negative_row H1 H2 H3).
Defined.

(** ** C4: what the two filters leave *)

Lemma cleaned_cell_text C r c :
  c ∈ ID_COL ++ TEXT_COLS → cleaned_cell C r c = Series.astype_string (get r c).
Proof.
  intros H. unfold cleaned_cell. pose proof (group_facts c).
  repeat case_decide; try done; tauto.
Qed.

Lemma gtin_is_id_text : "gtin" ∈ ID_COL ++ TEXT_COLS.
Proof. apply (bool_decide_unpack _). vm_compute. exact I. Qed.

Lemma ingredients_is_id_text : "ingredients_text" ∈ ID_COL ++ TEXT_COLS.
Proof. apply (bool_decide_unpack _). vm_compute. exact I. Qed.

Lemma astype_string_notna c :
  Series.notna (Series.astype_string c) = true →
  Series.isna c = false ∧ Series.astype_string c = Str (str_of c).
Proof. unfold Series.astype_string, Series.notna. by destruct (Series.isna c). Qed.

Lemma has_ingredients_Str s :
  has_ingredients (Str s) = true → PyStr.strip s ≠ "".
Proof.
  intros H Hs. unfold has_ingredients in H.
  apply andb_true_iff in H as [_ H]. apply negb_true_iff, bool_decide_eq_false in H.
  apply H. change (Some (PyStr.strip s) = Some ""). by rewrite Hs.
Qed.

Definition empty_gtin_df : DataFrame :=
  mkDF ["gtin"; "ingredients_text"]
       [row_of 0 [("gtin", Str ""); ("ingredients_text", Str "milk")]].

Definition empty_gtin_row : Row :=
  row_of 0 [("gtin", Str ""); ("ingredients_text", Str "milk");
            ("label_is_anomaly", Num (Fin 0 0))].

Definition empty_gtin_result : DataFrame :=
  mkDF ["gtin"; "ingredients_text"; "label_is_anomaly"] [empty_gtin_row].

(** C4, as stated, fails: a row whose GTIN is the empty string is kept. *)
Lemma empty_gtin_kept :
  clean insertion_argsort empty_gtin_df true = Ok (scenario_stdout, empty_gtin_result)
  ∧ empty_gtin_row ∈ rows empty_gtin_result
  ∧ get empty_gtin_row "gtin" = Str ""
  ∧ str_of (get empty_gtin_row "gtin") = "".
Proof.
  split_and!.
  - vm_compute. reflexivity.
  - cbn. left.
  - vm_compute. reflexivity.
  - vm_compute. reflexivity.
Qed.

(** C4, amended.  In the table [clean] returns no row has a missing GTIN:
    the cell is the string of an input cell that is not missing (it may be
    the empty string).  When the input has the column [ingredients_text],
    no row has it missing or blank: the cell is a string that is not empty
    once stripped. *)
Theorem no_missing_gtin_no_blank_ingredients argsort df verbose out df' r' :
  ArgsortSpec argsort →
  clean argsort df verbose = Ok (out, df') →
  r' ∈ rows df' →
  ∃ r, r ∈ rows df ∧ index r = index r' ∧
    Series.isna (get r "gtin") = false ∧
    get r' "gtin" = Str (str_of (get r "gtin")) ∧
    ("ingredients_text" ∈ columns df →
       ∃ s, get r' "ingredients_text" = Str s ∧ PyStr.strip s ≠ "").
Proof.
  intros Hspec Hc Hr'.
  assert (Hg : "gtin" ∈ columns df).
  { destruct (decide ("gtin" ∈ columns df)); [done|]. by rewrite clean_no_gtin in Hc. }
  destruct (clean_row_source _ _ _ _ _ _ Hspec Hc Hr') as (r & Hr & -> & Hn & Hi).
  pose proof (get_cleaned (columns df) r "gtin") as Hget.
  rewrite cleaned_cell_text in Hget by apply gtin_is_id_text.
  specialize (Hget (proj2 (COLS_TO_KEEP_groups _) (or_introl gtin_is_id_text)) Hg).
  rewrite Hget in Hn |- *.
  apply astype_string_notna in Hn as [Hna Heq].
  exists r. split_and!; [done|done|done|done|].
  intros HC. specialize (Hi HC).
  pose proof (get_cleaned (columns df) r "ingredients_text") as Hget'.
  rewrite cleaned_cell_text in Hget' by apply ingredients_is_id_text.
  specialize (Hget' (proj2 (COLS_TO_KEEP_groups _) (or_introl ingredients_is_id_text)) HC).
  rewrite Hget' in Hi |- *.
  pose proof Hi as Hna'. unfold has_ingredients in Hna'.
  apply andb_true_iff in Hna' as [Hna' _].
  apply astype_string_notna in Hna' as [_ Heq']. rewrite Heq' in Hi |- *.
  eexists. split; [done|]. by apply has_ingredients_Str.
Qed.

Lemma no_missing_gtin_no_blank_ingredients_witness :
  ArgsortSpec insertion_argsort
  ∧ clean insertion_argsort empty_gtin_df true = Ok (scenario_stdout, empty_gtin_result)
  ∧ empty_gtin_row ∈ rows empty_gtin_result
  ∧ ∃ r, r ∈ rows empty_gtin_df ∧ index r = index empty_gtin_row ∧
      Series.isna (get r "gtin") = false ∧
      get empty_gtin_row "gtin" = Str (str_of (get r "gtin")) ∧
      ("ingredients_text" ∈ columns empty_gtin_df →
         ∃ s, get empty_gtin_row "ingredients_text" = Str s ∧ PyStr.strip s ≠ "").
Proof.
  assert (H1 : ArgsortSpec insertion_argsort) by exact insertion_argsort_spec.
  assert (H2 : clean insertion_argsort empty_gtin_df true
               = Ok (scenario_stdout, empty_gtin_result)) by (vm_compute; reflexivity).
  assert (H3 : empty_gtin_row ∈ rows empty_gtin_result) by (cbn; left).
  split_and!; [exact H1|exact H2|exact H3|].
  exact (no_missing_gtin_no_blank_ingredients insertion_argsort empty_gtin_df true
           scenario_stdout empty_gtin_result empty_gtin_row H1 H2 H3).
Defined.

(** ** C6: the scenario of the specification *)

(** C6, as stated, fails: the caret stays at the end of [ingredients_text]. *)
Lemma scenario_text_keeps_caret :
  clean insertion_argsort scenario_df true = Ok (scenario_stdout, scenario_result)
  ∧ rows scenario_result = [scenario_row]
  ∧ get scenario_row "ingredients_text" = Str "milk^"
  ∧ PyStr.endswith (str_of (get scenario_row "ingredients_text")) "^" = true.
Proof. split_and!; vm_compute; reflexivity. Qed.

Lemma argsort_singleton argsort k :
  ArgsortSpec argsort → argsort [k] = [0%nat].
Proof.
  intros [Hp _]. specialize (Hp [k]). cbn in Hp.
  by apply Permutation_singleton_r in Hp.
Qed.

(** C6, amended.  For the input row [gtin="123", ingredients_text="milk^",
    calories="50^"], [clean] returns one row with [calories] equal to 50 and
    [label_is_anomaly] equal to 1; [ingredients_text] is unchanged, caret
    included. *)
Theorem scenario_row_cleaned argsort verbose :
  ArgsortSpec argsort →
  (∃ out, clean argsort scenario_df verbose = Ok (out, scenario_result))
  ∧ rows scenario_result = [scenario_row]
  ∧ get scenario_row "gtin" = Str "123"
  ∧ get scenario_row "calories" = Num (Fin 50 0)
  ∧ get scenario_row "ingredients_text" = Str "milk^"
  ∧ get scenario_row "label_is_anomaly" = Num (Fin 1 0).
Proof.
  intros Hspec. split_and!; try (vm_compute; reflexivity).
  destruct (clean_ok argsort verbose scenario_df Hspec) as (out & rs & Heq & HF).
  { cbn. left. }
  exists out. rewrite Heq. do 2 f_equal.
  assert (Hs : survivors (prepared scenario_df) = [scenario_row])
    by (vm_compute; reflexivity).
  rewrite Hs in HF. cbn [fmap list_fmap] in HF.
  rewrite (argsort_singleton _ _ Hspec) in HF.
  apply Forall2_cons_inv_l in HF as (r & rs' & Hr & Hnil & ->).
  apply Forall2_nil_inv_l in Hnil as ->. cbn in Hr. injection Hr as <-.
  vm_compute. reflexivity.
Qed.

Lemma scenario_row_cleaned_witness :
  ArgsortSpec insertion_argsort
  ∧ (∃ out, clean insertion_argsort scenario_df true = Ok (out, scenario_result))
  ∧ rows scenario_result = [scenario_row]
  ∧ get scenario_row "gtin" = Str "123"
  ∧ get scenario_row "calories" = Num (Fin 50 0)
  ∧ get scenario_row "ingredients_text" = Str "milk^"
  ∧ get scenario_row "label_is_anomaly" = Num (Fin 1 0).
Proof.
  split; [exact insertion_argsort_spec|].
  exact (scenario_row_cleaned insertion_argsort true insertion_argsort_spec).
Defined.

(** ** C7: the boolean coercion *)

Lemma cleaned_cell_bool C r c :
  c ∈ TAG_COLS ++ FLAG_COLS → cleaned_cell C r c = bool_value (get r c).
Proof.
  intros H. unfold cleaned_cell. pose proof (group_facts c).
  repeat case_decide; try done; tauto.
Qed.

Lemma bool_value_spec c :
  let s := PyStr.upper (str_of c) in
  bool_value c = Bool (bool_decide (s = "TRUE" ∨ s = "1")).
Proof.
  cbv zeta. unfold bool_value, Series.map_dict, Series.str_upper, Series.astype_str.
  cbn [fmap option_fmap option_map mbind option_bind].
  generalize (PyStr.upper (str_of c)). intros s.
  unfold BOOL_MAP, Series.dict_get, Series.fillna.
  destruct (String.eqb_spec s "TRUE") as [->|H1]; [done|].
  destruct (String.eqb_spec s "FALSE") as [->|H2]; [done|].
  destruct (String.eqb_spec s "1") as [->|H3]; [done|].
  destruct (String.eqb_spec s "0") as [->|H4]; [done|].
  cbn [default]. rewrite bool_decide_eq_false_2; [done|]. tauto.
Qed.

Lemma bool_value_isna c : Series.isna c = true → bool_value c = Bool false.
Proof. by destruct c. Qed.

Definition tags_df : DataFrame :=
  mkDF ["gtin"; "ingredients_text"; "is_whole_grain"; "flag_low_sodium"]
       [row_of 0 [("gtin", Str "1"); ("ingredients_text", Str "oats");
                  ("is_whole_grain", Str "true"); ("flag_low_sodium", NaN)];
        row_of 1 [("gtin", Str "2"); ("ingredients_text", Str "rice");
                  ("is_whole_grain", Str "yes"); ("flag_low_sodium", Num (Fin 1 0))]].

Definition tags_row0 : Row :=
  row_of 0 [("gtin", Str "1"); ("ingredients_text", Str "oats");
            ("is_whole_grain", Bool true); ("flag_low_sodium", Bool false);
            ("label_is_anomaly", Num (Fin 0 0))].

Definition tags_row1 : Row :=
  row_of 1 [("gtin", Str "2"); ("ingredients_text", Str "rice");
            ("is_whole_grain", Bool false); ("flag_low_sodium", Bool true);
            ("label_is_anomaly", Num (Fin 0 0))].

Definition tags_result : DataFrame :=
  mkDF ["gtin"; "ingredients_text"; "is_whole_grain"; "flag_low_sodium";
        "label_is_anomaly"]
       [tags_row0; tags_row1].

Definition tags_stdout : stdout :=
  [("Initial rows", 2); ("Removed (no GTIN)", 0);
   ("Removed (empty ingredients_text)", 0); ("Removed (duplicate GTINs)", 0);
   ("Final rows", 2); ("Total removed", 0)].

(** C7.  In the table [clean] returns, every Tag and Flag cell of a column
    of the input is a boolean: true when the raw cell's string, in upper
    case, is "TRUE" or "1", and false for every other cell, "FALSE", "0"
    and a missing cell included.  No cell value is an error: the result is
    [Ok] whatever these cells hold. *)
Theorem boolean_fail_open argsort df verbose out df' r' :
  ArgsortSpec argsort →
  clean argsort df verbose = Ok (out, df') →
  r' ∈ rows df' →
  ∃ r, r ∈ rows df ∧ index r = index r' ∧
    ∀ c, c ∈ TAG_COLS ++ FLAG_COLS → c ∈ columns df →
      let s := PyStr.upper (str_of (get r c)) in
      (s = "TRUE" ∨ s = "1" → get r' c = Bool true)
      ∧ (¬ (s = "TRUE" ∨ s = "1") → get r' c = Bool false)
      ∧ (Series.isna (get r c) = true → get r' c = Bool false).
Proof.
  intros Hspec Hc Hr'.
  destruct (clean_row_source _ _ _ _ _ _ Hspec Hc Hr') as (r & Hr & -> & _).
  exists r. split_and!; [done|done|]. intros c Hb HC. cbv zeta.
  rewrite get_cleaned; [|pose proof (group_facts c); tauto|done].
  rewrite cleaned_cell_bool by done. split_and!.
  - intros H. rewrite bool_value_spec. by rewrite bool_decide_eq_true_2.
  - intros H. rewrite bool_value_spec. by rewrite bool_decide_eq_false_2.
  - apply bool_value_isna.
Qed.

Lemma boolean_fail_open_witness :
  ArgsortSpec insertion_argsort
  ∧ clean insertion_argsort tags_df true = Ok (tags_stdout, tags_result)
  ∧ tags_row1 ∈ rows tags_result
  ∧ ∃ r, r ∈ rows tags_df ∧ index r = index tags_row1 ∧
      ∀ c, c ∈ TAG_COLS ++ FLAG_COLS → c ∈ columns tags_df →
        let s := PyStr.upper (str_of (get r c)) in
        (s = "TRUE" ∨ s = "1" → get tags_row1 c = Bool true)
        ∧ (¬ (s = "TRUE" ∨ s = "1") → get tags_row1 c = Bool false)
        ∧ (Series.isna (get r c) = true → get tags_row1 c = Bool false).
Proof.
  assert (H1 : ArgsortSpec insertion_argsort) by exact insertion_argsort_spec.
  assert (H2 : clean insertion_argsort tags_df true = Ok (tags_stdout, tags_result))
    by (vm_compute; reflexivity).
  assert (H3 : tags_row1 ∈ rows tags_result) by (cbn; right; left).
  split_and!; [exact H1|exact H2|exact H3|].
  exact (boolean_fail_open insertion_argsort tags_df true
           tags_stdout tags_result tags_row1 H1 H2 H3).
Defined.

(** ** C8: errors *)

Definition no_columns_df : DataFrame := mkDF [] [].

(** C8, as stated, fails: an input with no row and no identifier column is
    an error as well. *)
Lemma empty_input_raises :
  clean insertion_argsort no_columns_df true = Raise (KeyError ["gtin"])
  ∧ rows no_columns_df = []
  ∧ "gtin" ∉ columns no_columns_df.
Proof.
  split_and!; [vm_compute; reflexivity|done|]. by intros ?%elem_of_nil.
Qed.

(** C8, amended.  [clean] raises exactly when the input has no column
    [gtin], whether it has rows or not, and the error is the [KeyError] of
    that column; with the column, [clean] returns a table whatever the
    cells hold. *)
Theorem raises_iff_no_gtin_column argsort df verbose :
  ArgsortSpec argsort →
  ("gtin" ∉ columns df → clean argsort df verbose = Raise (KeyError ["gtin"]))
  ∧ ("gtin" ∈ columns df → ∃ out df', clean argsort df verbose = Ok (out, df'))
  ∧ ((∃ e, clean argsort df verbose = Raise e) ↔ "gtin" ∉ columns df).
Proof.
  intros Hspec. split_and!.
  - apply clean_no_gtin.
  - intros Hg. destruct (clean_ok argsort verbose df Hspec Hg) as (out & rs & Heq & _).
    by eexists _, _.
  - split.
    + intros [e He] Hg.
      destruct (clean_ok argsort verbose df Hspec Hg) as (out & rs & Heq & _).
      by rewrite Heq in He.
    + intros Hg. eexists. by apply clean_no_gtin.
Qed.

Lemma raises_iff_no_gtin_column_witness :
  ArgsortSpec insertion_argsort
  ∧ ("gtin" ∉ columns no_columns_df →
     clean insertion_argsort no_columns_df true = Raise (KeyError ["gtin"]))
  ∧ ("gtin" ∈ columns no_columns_df →
     ∃ out df', clean insertion_argsort no_columns_df true = Ok (out, df'))
  ∧ ((∃ e, clean insertion_argsort no_columns_df true = Raise e)
     ↔ "gtin" ∉ columns no_columns_df).
Proof.
  split; [exact insertion_argsort_spec|].
  exact (raises_iff_no_gtin_column insertion_argsort no_columns_df true
           insertion_argsort_spec).
Defined.

(** ** C9: the verbose flag *)

(** C9.  Whatever the sort, [clean] returns the same table, or raises the
    same error, with [verbose] true and false; it prints the six counters
    when [verbose] is true and nothing when it is false. *)
Theorem verbose_is_observational argsort df :
  match clean argsort df true, clean argsort df false with
  | Ok (out1, df1), Ok (out2, df2) =>
      df1 = df2 ∧ out2 = [] ∧
      out1.*1 = ["Initial rows"; "Removed (no GTIN)";
                 "Removed (empty ingredients_text)"; "Removed (duplicate GTINs)";
                 "Final rows"; "Total removed"]
  | Raise e1, Raise e2 => e1 = e2
  | _, _ => False
  end.
Proof.
  rewrite !clean_eq. generalize (len df), (prepared df). intros n d.
  unfold finish. destruct (dropna ["gtin"] d) as [d1|e]; [|done].
  cbn [mbind result_bind].
  destruct (if decide ("ingredients_text" ∈ columns d1) then _ else _) as [d2 k].
  destruct (sort_values argsort "gtin" d2) as [d3|e]; [|done].
  cbn [mbind result_bind].
  destruct (drop_duplicates "gtin" d3) as [d4|e]; [|done].
  cbn [mbind result_bind]. done.
Qed.

(** ** C10: a label column of the input *)

Definition BASE_COLS : list string :=
  ID_COL ++ TEXT_COLS ++ NUTRIENT_COLS ++ TAG_COLS ++ FLAG_COLS.

Lemma COLS_TO_KEEP_eq : COLS_TO_KEEP = BASE_COLS ++ [LABEL].
Proof. reflexivity. Qed.

Lemma LABEL_not_base : LABEL ∉ BASE_COLS.
Proof. apply (bool_decide_unpack _). vm_compute. exact I. Qed.

Lemma filter_ext_in {A} (P Q : A -> Prop) `{∀ x, Decision (P x)} `{∀ x, Decision (Q x)}
    (l : list A) :
  (∀ x, x ∈ l → (P x ↔ Q x)) → filter P l = filter Q l.
Proof.
  induction l as [|a l IH]; intros Hl; [done|].
  rewrite !filter_cons, IH by (intros; apply Hl; by right).
  assert (Ha : P a ↔ Q a) by (apply Hl; left).
  destruct (decide (P a)), (decide (Q a)); tauto.
Qed.

Lemma out_columns_eq (C : list string) :
  out_columns C = filter (λ c, c ∈ C) BASE_COLS ++ [LABEL].
Proof.
  unfold out_columns. rewrite COLS_TO_KEEP_eq, filter_app, filter_cons, filter_nil.
  destruct (decide (LABEL ∈ C)) as [HL|HL].
  - rewrite decide_True; [done|]. apply elem_of_app. right. left.
  - rewrite app_nil_r. rewrite decide_False; [done|].
    intros [H _]%list_elem_of_filter. by apply LABEL_not_base.
Qed.

Lemma out_columns_ext (C1 C2 : list string) :
  (∀ c, c ∈ BASE_COLS → (c ∈ C1 ↔ c ∈ C2)) → out_columns C1 = out_columns C2.
Proof.
  intros H. rewrite !out_columns_eq. f_equal. by apply filter_ext_in.
Qed.

Lemma caret_col_base c :
  c ∈ TEXT_COLS ++ NUTRIENT_COLS ++ TAG_COLS → c ∈ BASE_COLS ∧ c ≠ LABEL.
Proof.
  intros H. split.
  - unfold BASE_COLS. rewrite !elem_of_app in *. tauto.
  - intros ->. by apply LABEL_not_caret_col.
Qed.

Lemma cleaned_cell_ext (C1 C2 : list string) r1 r2 c :
  (∀ c, c ∈ BASE_COLS → (c ∈ C1 ↔ c ∈ C2)) →
  (∀ c, c ≠ LABEL → get r1 c = get r2 c) →
  cleaned_cell C1 r1 c = cleaned_cell C2 r2 c.
Proof.
  intros HC Hr. unfold cleaned_cell.
  destruct (decide (c = LABEL)) as [->|Hne].
  - do 3 f_equal. unfold anomaly. apply existsb_ext_in. intros col Hcol.
    apply caret_col_base in Hcol as [Hb Hl].
    rewrite Hr by done. f_equal. apply bool_decide_ext. by apply HC.
  - by rewrite !Hr.
Qed.

Lemma prepare_row_ext (C1 C2 : list string) r1 r2 :
  index r1 = index r2 →
  (∀ c, c ∈ BASE_COLS → (c ∈ C1 ↔ c ∈ C2)) →
  (∀ c, c ≠ LABEL → get r1 c = get r2 c) →
  prepare_row C1 r1 = prepare_row C2 r2.
Proof.
  intros Hi HC Hr. unfold prepare_row. rewrite Hi, (out_columns_ext _ _ HC).
  f_equal. f_equal. apply list_fmap_ext. intros _ c _.
  f_equal. by apply cleaned_cell_ext.
Qed.

Lemma label_zero_or_one C r :
  get (prepare_row C r) "label_is_anomaly" = Num (Fin 0 0)
  ∨ get (prepare_row C r) "label_is_anomaly" = Num (Fin 1 0).
Proof. rewrite get_label_prepare_row. destruct (anomaly C r); auto. Qed.

Definition labelled_df : DataFrame :=
  mkDF ["gtin"; "label_is_anomaly"; "ingredients_text"]
       [row_of 0 [("gtin", Str "9"); ("label_is_anomaly", Str "maybe");
                  ("ingredients_text", Str "rye")]].

Definition labelled_row : Row :=
  row_of 0 [("gtin", Str "9"); ("ingredients_text", Str "rye");
            ("label_is_anomaly", Num (Fin 0 0))].

Definition labelled_result : DataFrame :=
  mkDF ["gtin"; "ingredients_text"; "label_is_anomaly"] [labelled_row].

(** C10.  A column [label_is_anomaly] of the input has no effect: writing
    any values [f] into it (or adding it) leaves the result of [clean]
    unchanged.  The label of every output row is 0 or 1. *)
Theorem input_label_discarded argsort df verbose (f : Row -> cell) :
  ArgsortSpec argsort →
  clean argsort (assign "label_is_anomaly" f df) verbose = clean argsort df verbose
  ∧ ∀ out df' r',
      clean argsort df verbose = Ok (out, df') → r' ∈ rows df' →
      get r' "label_is_anomaly" = Num (Fin 0 0)
      ∨ get r' "label_is_anomaly" = Num (Fin 1 0).
Proof.
  intros Hspec. split.
  - rewrite !clean_eq. f_equal.
    + unfold len, assign. cbn [rows]. by rewrite length_fmap.
    + rewrite !prepared_eq. change "label_is_anomaly" with LABEL.
      assert (HC : ∀ c, c ∈ BASE_COLS → c ∈ columns (assign LABEL f df) ↔ c ∈ columns df).
      { intros c Hb. assert (Hc : c ≠ LABEL) by (intros ->; by apply LABEL_not_base).
        unfold assign. cbn [columns].
        destruct (decide (LABEL ∈ columns df)); [done|].
        rewrite elem_of_app, list_elem_of_singleton. tauto. }
      f_equal; [by apply out_columns_ext|].
      unfold assign at 2. cbn [rows]. rewrite <- list_fmap_compose.
      apply list_fmap_ext. intros _ r _. cbn [compose].
      apply prepare_row_ext; [done|done|].
      intros c Hc. by rewrite get_set, decide_False.
  - intros out df' r' Hc Hr'.
    destruct (clean_row_source _ _ _ _ _ _ Hspec Hc Hr') as (r & Hr & -> & _).
    apply label_zero_or_one.
Qed.

Lemma input_label_discarded_witness :
  ArgsortSpec insertion_argsort
  ∧ clean insertion_argsort
      (assign "label_is_anomaly" (λ _, Str "garbage") labelled_df) true
    = clean insertion_argsort labelled_df true
  ∧ ∀ out df' r',
      clean insertion_argsort labelled_df true = Ok (out, df') → r' ∈ rows df' →
      get r' "label_is_anomaly" = Num (Fin 0 0)
      ∨ get r' "label_is_anomaly" = Num (Fin 1 0).
Proof.
  split; [exact insertion_argsort_spec|].
  exact (input_label_discarded insertion_argsort labelled_df true (λ _, Str "garbage")
           insertion_argsort_spec).
Defined.

(** ** Numbers: what [repr] writes *)

Fixpoint all_chars (p : ascii -> bool) (s : string) : bool :=
  match s with
  | EmptyString => true
  | String a t => p a && all_chars p t
  end.

Definition is_digit (a : ascii) : bool :=
  match Numeric.digit_of a with Some _ => true | None => false end.

(** Neither whitespace nor a caret. *)
Definition plain (a : ascii) : bool :=
  negb (PyStr.isspace a) && negb (PyStr.is_caret a).

Lemma all_chars_app p s t :
  all_chars p (String.append s t) = all_chars p s && all_chars p t.
Proof.
  induction s as [|a s IH]; simpl; [done|].
  by rewrite IH, andb_assoc.
Qed.

Lemma all_chars_impl (p q : ascii -> bool) s :
  (∀ a, p a = true → q a = true) → all_chars p s = true → all_chars q s = true.
Proof.
  intros H. induction s as [|a s IH]; cbn; [done|].
  intros [Ha Hs]%andb_true_iff. apply andb_true_iff. auto.
Qed.

Lemma rstrip_chars_id p s :
  all_chars (λ a, negb (p a)) s = true → PyStr.rstrip_chars p s = s.
Proof.
  induction s as [|a s IH]; cbn; [done|].
  intros [Ha Hs]%andb_true_iff. rewrite IH by done.
  apply negb_true_iff in Ha. rewrite Ha. by destruct s.
Qed.

Lemma lstrip_id s :
  all_chars (λ a, negb (PyStr.isspace a)) s = true → PyStr.lstrip s = s.
Proof.
  destruct s as [|a s]; cbn; [done|].
  intros [Ha _]%andb_true_iff. apply negb_true_iff in Ha. by rewrite Ha.
Qed.

Lemma strip_plain s :
  all_chars plain s = true →
  PyStr.strip (PyStr.rstrip_chars PyStr.is_caret s) = s ∧ PyStr.strip s = s.
Proof.
  intros H.
  assert (H1 : all_chars (λ a, negb (PyStr.is_caret a)) s = true).
  { apply (all_chars_impl plain); [|done]. unfold plain. by intros a [_ ?]%andb_true_iff. }
  assert (H2 : all_chars (λ a, negb (PyStr.isspace a)) s = true).
  { apply (all_chars_impl plain); [|done]. unfold plain. by intros a [? _]%andb_true_iff. }
  rewrite rstrip_chars_id by done. unfold PyStr.strip.
  by rewrite rstrip_chars_id, lstrip_id.
Qed.

Lemma endswith_plain s : all_chars plain s = true → PyStr.endswith s "^" = false.
Proof.
  induction s as [|a s IH]; [done|]. cbn [all_chars PyStr.endswith].
  intros [Ha Hs]%andb_true_iff. rewrite IH by done. rewrite orb_false_r.
  apply String.eqb_neq. intros [= -> ->]. by vm_compute in Ha.
Qed.

Lemma digit_cases (d : N) :
  (d < 10)%N →
  d = 0%N ∨ d = 1%N ∨ d = 2%N ∨ d = 3%N ∨ d = 4%N ∨ d = 5%N ∨ d = 6%N
  ∨ d = 7%N ∨ d = 8%N ∨ d = 9%N.
Proof. lia. Qed.

Lemma digit_of_digit_char d :
  (d < 10)%N → Numeric.digit_of (Numeric.digit_char d) = Some d.
Proof. intros H. destruct (digit_cases d H) as [->|[->|[->|[->|[->|[->|[->|[->|[->| ->]]]]]]]]]; reflexivity. Qed.

(** What a digit is not: whitespace, a caret, a point, an exponent mark, a
    sign, the letter that starts "inf". *)
Definition digit_like (a : ascii) : bool :=
  plain a && negb (Numeric.is_dot a) && negb (Numeric.is_exp a)
  && negb (Ascii.eqb a "-") && negb (Ascii.eqb a "+")
  && negb (Ascii.eqb (PyStr.lower_char a) "i").

Lemma is_digit_like a : is_digit a = true → digit_like a = true.
Proof.
  unfold is_digit, Numeric.digit_of.
  destruct ((48 <=? N_of_ascii a) && (N_of_ascii a <=? 57))%N eqn:H; [|done].
  intros _. apply andb_true_iff in H as [H1 H2].
  apply N.leb_le in H1, H2.
  assert (Ha : a = ascii_of_N (N_of_ascii a)) by (by rewrite ascii_N_embedding).
  assert (Hd : (N_of_ascii a - 48 < 10)%N) by lia.
  assert (Hn : N_of_ascii a = (48 + (N_of_ascii a - 48))%N) by lia.
  rewrite Ha, Hn.
  destruct (digit_cases _ Hd) as [->|[->|[->|[->|[->|[->|[->|[->|[->| ->]]]]]]]]];
    reflexivity.
Qed.

Lemma is_digit_digit_char d : (d < 10)%N → is_digit (Numeric.digit_char d) = true.
Proof. intros H. unfold is_digit. by rewrite digit_of_digit_char. Qed.

Lemma append_cons a s t : String.append (String a s) t = String a (String.append s t).
Proof. reflexivity. Qed.

Lemma append_assoc s t u :
  String.append (String.append s t) u = String.append s (String.append t u).
Proof. induction s as [|a s IH]; [done|]. by rewrite !append_cons, IH. Qed.

Lemma append_nil_r s : String.append s "" = s.
Proof. induction s as [|a s IH]; [done|]. by rewrite append_cons, IH. Qed.

Lemma digits_val_app s t acc :
  Numeric.digits_val (String.append s t) acc
  = Numeric.digits_val s acc ≫= Numeric.digits_val t.
Proof.
  revert acc. induction s as [|a s IH]; intros acc; [done|].
  rewrite append_cons. simpl. destruct (Numeric.digit_of a); [apply IH|done].
Qed.

Lemma digits_of_acc fuel n acc :
  Numeric.digits_of fuel n acc = String.append (Numeric.digits_of fuel n "") acc.
Proof.
  revert n acc. induction fuel as [|fuel IH]; intros n acc; simpl; [done|].
  destruct (n <? 10)%N; [done|].
  rewrite (IH _ (String _ acc)), (IH _ (String _ "")), append_assoc. done.
Qed.

Lemma digits_of_is_digit fuel n acc :
  all_chars is_digit acc = true →
  all_chars is_digit (Numeric.digits_of fuel n acc) = true.
Proof.
  revert n acc. induction fuel as [|fuel IH]; intros n acc Hacc.
  - simpl. rewrite is_digit_digit_char, Hacc; [done|].
    apply N.mod_upper_bound. lia.
  - cbn [Numeric.digits_of].
    assert (H : all_chars is_digit (String (Numeric.digit_char (n mod 10)) acc) = true).
    { simpl. rewrite is_digit_digit_char, Hacc; [done|].
      apply N.mod_upper_bound. lia. }
    destruct (n <? 10)%N; [done|]. by apply IH.
Qed.

Lemma digits_of_val fuel n :
  (n < 10 ^ N.of_nat (S fuel))%N →
  Numeric.digits_val (Numeric.digits_of fuel n "") 0 = Some n.
Proof.
  revert n. induction fuel as [|fuel IH]; intros n Hn.
  - simpl. change (10 ^ N.of_nat 1)%N with 10%N in Hn.
    rewrite N.mod_small by done. rewrite digit_of_digit_char by done. done.
  - cbn [Numeric.digits_of]. destruct (N.ltb_spec n 10) as [Hlt|Hge].
    + simpl. rewrite N.mod_small by done. rewrite digit_of_digit_char by done. done.
    + rewrite digits_of_acc, digits_val_app, IH.
      * simpl. rewrite digit_of_digit_char by (apply N.mod_upper_bound; lia).
        f_equal. rewrite (N.div_mod n 10) at 3 by lia. lia.
      * apply N.Div0.div_lt_upper_bound.
        rewrite <- N.pow_succ_r'. by rewrite <- Nat2N.inj_succ.
Qed.

Lemma log2_fuel n : (n < 10 ^ N.of_nat (S (N.to_nat (N.log2 n))))%N.
Proof.
  rewrite Nat2N.inj_succ, N2Nat.id.
  destruct (N.eq_dec n 0%N) as [->|Hn]; [done|].
  destruct (N.log2_spec n) as [_ H]; [lia|].
  eapply N.lt_le_trans; [exact H|].
  apply N.pow_le_mono_l. lia.
Qed.

Lemma str_of_N_val n : Numeric.digits_val (Numeric.str_of_N n) 0 = Some n.
Proof. apply digits_of_val, log2_fuel. Qed.

Lemma str_of_N_is_digit n : all_chars is_digit (Numeric.str_of_N n) = true.
Proof. by apply digits_of_is_digit. Qed.

Lemma zeros_is_digit k : all_chars is_digit (Numeric.zeros k) = true.
Proof. induction k as [|k IH]; [done|]. simpl. by rewrite IH. Qed.

Lemma zeros_val k s :
  Numeric.digits_val (String.append (Numeric.zeros k) s) 0 = Numeric.digits_val s 0.
Proof. induction k as [|k IH]; [done|]. cbn [Numeric.zeros]. rewrite append_cons. exact IH. Qed.

Lemma digit_like_parts a :
  digit_like a = true →
  plain a = true ∧ Numeric.is_dot a = false ∧ Numeric.is_exp a = false
  ∧ Ascii.eqb a "-" = false ∧ Ascii.eqb a "+" = false
  ∧ Ascii.eqb (PyStr.lower_char a) "i" = false.
Proof.
  unfold digit_like. rewrite !andb_true_iff, !negb_true_iff. tauto.
Qed.

Lemma digits_plain s : all_chars is_digit s = true → all_chars plain s = true.
Proof.
  apply all_chars_impl. intros a Ha%is_digit_like%digit_like_parts. tauto.
Qed.

Lemma str_of_Z_sign m :
  Numeric.str_of_Z m
  = if m <? 0 then String "-" (Numeric.str_of_N (Z.abs_N m))
    else Numeric.str_of_N (Z.abs_N m).
Proof. reflexivity. Qed.

Lemma length_append s t :
  String.length (String.append s t) = (String.length s + String.length t)%nat.
Proof. induction s as [|a s IH]; [done|]. rewrite append_cons. cbn. by rewrite IH. Qed.

Lemma length_zeros k : String.length (Numeric.zeros k) = k.
Proof. induction k as [|k IH]; [done|]. cbn. by rewrite IH. Qed.

Lemma take_drop i s : String.append (Numeric.take i s) (Numeric.drop i s) = s.
Proof.
  revert i. induction s as [|a s IH]; intros [|i]; try done.
  cbn [Numeric.take Numeric.drop]. by rewrite append_cons, IH.
Qed.

Lemma length_drop i s :
  String.length (Numeric.drop i s) = (String.length s - i)%nat.
Proof. revert i. induction s as [|a s IH]; intros [|i]; try done. cbn. apply IH. Qed.

Lemma all_chars_take p i s :
  all_chars p s = true → all_chars p (Numeric.take i s) = true.
Proof.
  revert i. induction s as [|a s IH]; intros [|i]; try done.
  cbn. intros [Ha Hs]%andb_true_iff. by rewrite Ha, IH.
Qed.

Lemma all_chars_drop p i s :
  all_chars p s = true → all_chars p (Numeric.drop i s) = true.
Proof.
  revert i. induction s as [|a s IH]; intros [|i]; try done.
  cbn. intros [Ha Hs]%andb_true_iff. by apply IH.
Qed.

(** [fixed n k] is [ip.fp] with digits only, [k] of them after the point and
    at least one before, and the digits read [n]. *)
Lemma fixed_spec n k :
  ∃ ip fp a t,
    Numeric.fixed n k = String.append ip (String "." fp)
    ∧ all_chars is_digit ip = true ∧ all_chars is_digit fp = true
    ∧ String.length fp = k
    ∧ ip = String a t ∧ is_digit a = true
    ∧ Numeric.digits_val (String.append ip fp) 0 = Some n.
Proof.
  unfold Numeric.fixed.
  set (d := Numeric.str_of_N n).
  set (ds := String.append (Numeric.zeros (S k - String.length d)) d).
  set (i := (String.length ds - k)%nat).
  assert (Hds : all_chars is_digit ds = true).
  { unfold ds, d. by rewrite all_chars_app, zeros_is_digit, str_of_N_is_digit. }
  assert (Hlen : (S k <= String.length ds)%nat).
  { unfold ds. rewrite length_append, length_zeros. lia. }
  assert (Hi : ∃ i', i = S i') by (exists (Nat.pred i); unfold i; lia).
  destruct Hi as [i' Hi'].
  destruct ds as [|a t] eqn:Eds; [cbn in Hlen; lia|].
  exists (Numeric.take i (String a t)), (Numeric.drop i (String a t)), a,
         (Numeric.take i' t).
  split_and!.
  - done.
  - by apply all_chars_take.
  - by apply all_chars_drop.
  - rewrite length_drop. unfold i. lia.
  - by rewrite Hi'.
  - cbn in Hds. by apply andb_true_iff in Hds as [? _].
  - rewrite take_drop, <- Eds. unfold ds. rewrite zeros_val. apply str_of_N_val.
Qed.

Lemma str_of_Z_plain m : all_chars plain (Numeric.str_of_Z m) = true.
Proof.
  rewrite str_of_Z_sign. pose proof (digits_plain _ (str_of_N_is_digit (Z.abs_N m))) as H.
  destruct (m <? 0); [|done]. cbn [all_chars]. by rewrite H.
Qed.

Lemma repr_plain x : all_chars plain (Numeric.repr x) = true.
Proof.
  destruct x as [m e|[]]; [|done..]. unfold Numeric.repr.
  destruct (e =? 0); [apply str_of_Z_plain|].
  destruct (e <? 0).
  - destruct (fixed_spec (Z.abs_N m) (Z.to_nat (- e)))
      as (ip & fp & a & t & Hfix & Hip & Hfp & _).
    rewrite Hfix, !all_chars_app. cbn [all_chars].
    rewrite (digits_plain ip), (digits_plain fp) by done.
    destruct (m <? 0); reflexivity.
  - rewrite all_chars_app. cbn [all_chars]. rewrite !str_of_Z_plain. reflexivity.
Qed.

Lemma has_caret_Num x : has_caret (Num x) = false.
Proof.
  rewrite has_caret_unfold. cbn [str_of].
  destruct (strip_plain _ (repr_plain x)) as [_ ->].
  apply endswith_plain, repr_plain.
Qed.

Lemma has_caret_Bool b : has_caret (Bool b) = false.
Proof. destruct b; vm_compute; reflexivity. Qed.

Lemma bool_value_Bool b : bool_value (Bool b) = Bool b.
Proof. destruct b; vm_compute; reflexivity. Qed.

Lemma astype_string_idem c :
  Series.astype_string (Series.astype_string c) = Series.astype_string c.
Proof. destruct c; reflexivity. Qed.

(** ** Sorting what is sorted already *)

Lemma StronglySorted_sublist {A} (R : relation A) l1 l2 :
  l1 `sublist_of` l2 → StronglySorted R l2 → StronglySorted R l1.
Proof.
  induction 1 as [|x l1 l2 Hsub IH|x l1 l2 Hsub IH]; intros Hs; [done| |].
  - apply StronglySorted_inv in Hs as [Hs Hx]. constructor; [by apply IH|].
    rewrite Forall_forall in *. intros y Hy. apply Hx. by eapply elem_of_sublist.
  - apply StronglySorted_inv in Hs as [Hs _]. by apply IH.
Qed.

Lemma Forall2_nth_seq (pre keys : list string) :
  Forall2 (λ k i, nth i (pre ++ keys) "" = k) keys (seq (length pre) (length keys)).
Proof.
  revert pre. induction keys as [|k keys IH]; intros pre; [constructor|].
  cbn [length seq]. constructor.
  - by rewrite nth_middle.
  - specialize (IH (pre ++ [k])).
    rewrite length_app, Nat.add_1_r, <- app_assoc in IH. exact IH.
Qed.

Lemma Forall2_lookup_seq {A} (l rs : list A) :
  Forall2 (λ i r, l !! i = Some r) (seq 0 (length l)) rs → rs = l.
Proof.
  intros HF. rewrite <- (omap_Forall2_lookup _ _ _ HF). apply omap_lookup_seq.
Qed.

(** On keys that ascend strictly, every [argsort] is the identity. *)
Lemma argsort_sorted_id argsort keys :
  ArgsortSpec argsort →
  StronglySorted (λ a b, PyStr.leb a b = true) keys → NoDup keys →
  argsort keys = seq 0 (length keys).
Proof.
  intros [Hp Hs] Hsorted Hnd.
  apply (StronglySorted_unique_strong (key_le keys)); [|apply Hs| |apply Hp].
  - intros i j Hi Hj Hij Hji. unfold key_le in *.
    pose proof (leb_antisym _ _ Hij Hji) as Heq.
    rewrite Hp in Hi. apply elem_of_seq in Hi. apply elem_of_seq in Hj.
    destruct (lookup_lt_is_Some_2 keys i) as [ki Hki]; [lia|].
    destruct (lookup_lt_is_Some_2 keys j) as [kj Hkj]; [lia|].
    rewrite (nth_lookup_Some _ _ _ _ Hki), (nth_lookup_Some _ _ _ _ Hkj) in Heq.
    subst kj. by eapply NoDup_lookup.
  - eapply (StronglySorted_Forall2 (λ k i, nth i keys "" = k));
      [|apply (Forall2_nth_seq [] keys)|exact Hsorted].
    intros k1 k2 i j <- <- H. exact H.
Qed.

Lemma filter_all {A} (P : A -> Prop) `{∀ x, Decision (P x)} (l : list A) :
  (∀ x, x ∈ l → P x) → filter P l = l.
Proof.
  induction l as [|a l IH]; intros Hl; [done|].
  rewrite filter_cons, decide_True by (apply Hl; left).
  f_equal. apply IH. intros; apply Hl. by right.
Qed.

(** ** C5: [clean] on its own output *)

(** Whether a row has a caret at the end of a Text cell. *)
Definition text_marked (C : list string) (r : Row) : bool :=
  existsb (λ col, bool_decide (col ∈ C) && has_caret (get r col)) TEXT_COLS.

Lemma existsb_false {A} (f : A -> bool) l :
  (∀ x, x ∈ l → f x = false) → existsb f l = false.
Proof.
  induction l as [|a l IH]; intros H; [done|]. cbn.
  rewrite H by left. apply IH. intros; apply H. by right.
Qed.

Lemma base_in_out_columns (C : list string) c :
  c ∈ BASE_COLS → (c ∈ out_columns C ↔ c ∈ C).
Proof.
  intros Hb. rewrite elem_of_out_columns.
  assert (c ≠ LABEL) by (intros ->; by apply LABEL_not_base).
  assert (c ∈ COLS_TO_KEEP).
  { rewrite COLS_TO_KEEP_eq. apply elem_of_app. by left. }
  tauto.
Qed.

Lemma out_columns_idem (C : list string) : out_columns (out_columns C) = out_columns C.
Proof. apply out_columns_ext. intros c Hc. by apply base_in_out_columns. Qed.

Lemma anomaly_prepared C r :
  anomaly (out_columns C) (prepare_row C r)
  = text_marked (out_columns C) (prepare_row C r).
Proof.
  unfold anomaly, text_marked. rewrite !existsb_app.
  rewrite (existsb_false _ NUTRIENT_COLS), (existsb_false _ TAG_COLS).
  - by rewrite !orb_false_r.
  - intros c Hc. destruct (decide (c ∈ out_columns C)) as [Hin|Hin].
    + rewrite get_prepare_row, decide_True by done.
      rewrite cleaned_cell_bool by (apply elem_of_app; by left).
      unfold bool_value. by rewrite has_caret_Bool, andb_false_r.
    + by rewrite bool_decide_eq_false_2.
  - intros c Hc. destruct (decide (c ∈ out_columns C)) as [Hin|Hin].
    + rewrite get_prepare_row, decide_True by done.
      rewrite cleaned_cell_nutrient by done.
      rewrite nutrient_value_unfold. by rewrite has_caret_Num, andb_false_r.
    + by rewrite bool_decide_eq_false_2.
Qed.

(** The Identifier, Text, Tag and Flag cells of a cleaned row are cleaned to
    themselves. *)
Lemma cleaned_cell_again C r c :
  c ∈ out_columns C → c ≠ LABEL → c ∉ NUTRIENT_COLS →
  cleaned_cell (out_columns C) (prepare_row C r) c = cleaned_cell C r c.
Proof.
  intros Hin Hne Hnn.
  assert (Hget : get (prepare_row C r) c = cleaned_cell C r c).
  { rewrite get_prepare_row. by destruct (decide (c ∈ out_columns C)). }
  unfold cleaned_cell at 1. rewrite Hget.
  destruct (decide (c = LABEL)) as [|_]; [done|].
  destruct (decide (c ∈ ID_COL ++ TEXT_COLS)) as [Ht|Ht].
  - rewrite cleaned_cell_text by done. apply astype_string_idem.
  - rewrite decide_False by done.
    assert (Hb : c ∈ TAG_COLS ++ FLAG_COLS).
    { apply elem_of_out_columns in Hin as [[HK _]|?]; [|done].
      apply COLS_TO_KEEP_groups in HK. tauto. }
    rewrite cleaned_cell_bool by done. unfold bool_value. apply bool_value_Bool.
Qed.

(** The cells of a cleaned row after a second pass. *)
Lemma get_again C r c :
  c ≠ LABEL → c ∉ NUTRIENT_COLS →
  get (prepare_row (out_columns C) (prepare_row C r)) c = get (prepare_row C r) c.
Proof.
  intros Hne Hnn. rewrite (get_prepare_row (out_columns C)), out_columns_idem.
  rewrite (get_prepare_row C r c).
  destruct (decide (c ∈ out_columns C)); [|done]. by apply cleaned_cell_again.
Qed.

Lemma get_again_nutrient C r c :
  c ∈ NUTRIENT_COLS → c ∈ out_columns C →
  get (prepare_row (out_columns C) (prepare_row C r)) c
  = nutrient_value (get (prepare_row C r) c).
Proof.
  intros Hn Hin. rewrite (get_prepare_row (out_columns C)), out_columns_idem.
  rewrite decide_True by done. by rewrite cleaned_cell_nutrient.
Qed.

Lemma get_again_label C r :
  get (prepare_row (out_columns C) (prepare_row C r)) "label_is_anomaly"
  = Num (Fin (Z.b2z (text_marked (out_columns C) (prepare_row C r))) 0).
Proof. by rewrite get_label_prepare_row, anomaly_prepared. Qed.

Lemma not_nutrient c :
  c ∈ ID_COL ++ TEXT_COLS ++ TAG_COLS ++ FLAG_COLS → c ≠ LABEL ∧ c ∉ NUTRIENT_COLS.
Proof.
  intros H. destruct (group_facts c) as (H1 & H2 & H3 & _).
  rewrite app_assoc in H. apply elem_of_app in H as [H|H].
  - by destruct (H1 H) as (? & _ & ?).
  - split; [by apply H3|]. intros Hn. by destruct (H2 Hn) as [? _].
Qed.

Lemma get_gtin_prepared C r :
  Series.notna (get (prepare_row C r) "gtin") = true →
  get (prepare_row C r) "gtin" = Str (gtin_key (prepare_row C r)).
Proof.
  intros Hn. unfold gtin_key.
  rewrite get_prepare_row in Hn |- *.
  destruct (decide ("gtin" ∈ out_columns C)); [|done].
  rewrite cleaned_cell_text in Hn |- * by apply gtin_is_id_text.
  apply astype_string_notna in Hn as [_ ->]. done.
Qed.

(** The shape of the table [clean] returns: its columns, where its rows
    come from, and that its identifiers are distinct and ascend. *)
Lemma clean_output_shape argsort verbose df out df' :
  ArgsortSpec argsort →
  clean argsort df verbose = Ok (out, df') →
  "gtin" ∈ columns df
  ∧ columns df' = out_columns (columns df)
  ∧ (∀ r', r' ∈ rows df' →
       ∃ r, r ∈ rows df ∧ r' = prepare_row (columns df) r
            ∧ Series.notna (get r' "gtin") = true
            ∧ ("ingredients_text" ∈ columns df →
               has_ingredients (get r' "ingredients_text") = true))
  ∧ NoDup ((λ r, get r "gtin") <$> rows df')
  ∧ StronglySorted (λ a b, PyStr.leb (gtin_key a) (gtin_key b) = true) (rows df').
Proof.
  intros Hspec Hc.
  assert (Hg : "gtin" ∈ columns df).
  { destruct (decide ("gtin" ∈ columns df)); [done|]. by rewrite clean_no_gtin in Hc. }
  split; [done|].
  split_and!.
  - destruct (clean_ok argsort verbose df Hspec Hg) as (out' & rs & Heq & HF).
    rewrite Heq in Hc. by injection Hc as <- <-.
  - intros r' Hr'. by eapply clean_row_source.
  - destruct (clean_ok argsort verbose df Hspec Hg) as (out' & rs & Heq & HF).
    rewrite Heq in Hc. injection Hc as <- <-. cbn [rows]. apply keep_first_NoDup.
  - destruct (clean_ok argsort verbose df Hspec Hg) as (out' & rs & Heq & HF).
    rewrite Heq in Hc. injection Hc as <- <-. cbn [rows].
    eapply StronglySorted_sublist; [apply keep_first_sublist|].
    eapply StronglySorted_Forall2; [|exact HF|apply (argsort_sorted _ Hspec)].
    intros i j a b Hi Hj Hij. unfold key_le in Hij.
    rewrite (nth_lookup_Some _ _ _ (gtin_key a)) in Hij
      by (by rewrite list_lookup_fmap, Hi).
    rewrite (nth_lookup_Some _ _ _ (gtin_key b)) in Hij
      by (by rewrite list_lookup_fmap, Hj).
    exact Hij.
Qed.

Lemma StronglySorted_fmap_key {A} (f : A -> string) l :
  StronglySorted (λ a b, PyStr.leb (f a) (f b) = true) l →
  StronglySorted (λ a b, PyStr.leb a b = true) (f <$> l).
Proof.
  induction 1 as [|x l Hl IH Hx]; cbn; constructor; [done|].
  by apply Forall_fmap.
Qed.

(** A second pass over the table [clean] returned finds nothing to filter,
    to sort or to drop: it returns the rows of the table, each cleaned
    again, in the same order. *)
Lemma clean_of_cleaned argsort df verbose verbose' out df' :
  ArgsortSpec argsort →
  clean argsort df verbose = Ok (out, df') →
  ∃ out',
    clean argsort df' verbose'
    = Ok (out', mkDF (columns df') (prepare_row (columns df') <$> rows df')).
Proof.
  intros Hspec Hc.
  destruct (clean_output_shape _ _ _ _ _ Hspec Hc) as (Hg & Hcols & Hsrc & Hnd & Hsort).
  destruct df' as [K' rs']. cbn [columns rows] in *. subst K'.
  set (C := columns df) in *.
  assert (Hg' : "gtin" ∈ out_columns C) by (by apply gtin_in_out_columns).
  destruct (clean_ok argsort verbose' (mkDF (out_columns C) rs') Hspec Hg')
    as (out' & rs2 & Heq & HF).
  exists out'. rewrite Heq. cbn [columns]. rewrite out_columns_idem.
  do 2 f_equal.
  set (P := prepare_row (out_columns C)) in *.
  assert (Hprep : prepared (mkDF (out_columns C) rs') = mkDF (out_columns C) (P <$> rs')).
  { rewrite prepared_eq. cbn [columns rows]. by rewrite out_columns_idem. }
  assert (Hgtin : ∀ r, r ∈ rs' → get (P r) "gtin" = get r "gtin").
  { intros r' Hr'. destruct (Hsrc r' Hr') as (r & _ & -> & _).
    apply get_again; apply (not_nutrient "gtin"), (bool_decide_unpack _);
      vm_compute; exact I. }
  assert (Hing : ∀ r, r ∈ rs' → get (P r) "ingredients_text" = get r "ingredients_text").
  { intros r' Hr'. destruct (Hsrc r' Hr') as (r & _ & -> & _).
    apply get_again; apply (not_nutrient "ingredients_text"), (bool_decide_unpack _);
      vm_compute; exact I. }
  assert (Hsurv : survivors (prepared (mkDF (out_columns C) rs')) = P <$> rs').
  { rewrite Hprep. unfold survivors. cbn [columns rows].
    rewrite (filter_all _ (P <$> rs')).
    - destruct (decide ("ingredients_text" ∈ out_columns C)) as [Hi|Hi]; [|done].
      apply filter_all. intros r' (r & -> & Hr)%list_elem_of_fmap.
      rewrite Hing by done. destruct (Hsrc r Hr) as (r0 & _ & _ & _ & H).
      apply H. by apply ingredients_in_out_columns.
    - intros r' (r & -> & Hr)%list_elem_of_fmap. cbn [forallb].
      rewrite Hgtin, andb_true_r by done.
      by destruct (Hsrc r Hr) as (r0 & _ & _ & H & _). }
  rewrite Hsurv in HF.
  assert (Hkeys : gtin_key <$> (P <$> rs') = gtin_key <$> rs').
  { rewrite <- list_fmap_compose. apply list_fmap_ext.
    intros _ r Hr%list_elem_of_lookup_2. cbn [compose]. unfold gtin_key.
    by rewrite Hgtin. }
  assert (Hcells : (λ r, get r "gtin") <$> rs' = Str <$> (gtin_key <$> rs')).
  { rewrite <- list_fmap_compose. apply list_fmap_ext.
    intros _ r' Hr'%list_elem_of_lookup_2. cbn [compose].
    destruct (Hsrc r' Hr') as (r & _ & -> & Hn & _). by apply get_gtin_prepared. }
  rewrite Hkeys in HF.
  rewrite (argsort_sorted_id argsort (gtin_key <$> rs') Hspec) in HF.
  - rewrite length_fmap in HF.
    rewrite <- (length_fmap P) in HF.
    apply Forall2_lookup_seq in HF as ->.
    f_equal. apply keep_first_id; [|by intros ? _ ?%elem_of_nil].
    rewrite <- list_fmap_compose.
    erewrite list_fmap_ext; [exact Hnd|].
    intros _ r Hr%list_elem_of_lookup_2. cbn [compose]. by apply Hgtin.
  - by apply StronglySorted_fmap_key.
  - rewrite Hcells in Hnd. by apply NoDup_fmap_1 in Hnd.
Qed.

Definition caret_nutrient_df : DataFrame :=
  mkDF ["gtin"; "ingredients_text"; "calories"]
       [row_of 0 [("gtin", Str "123"); ("ingredients_text", Str "milk");
                  ("calories", Str "50^")]].

Definition caret_nutrient_once : DataFrame :=
  mkDF ["gtin"; "ingredients_text"; "calories"; "label_is_anomaly"]
       [row_of 0 [("gtin", Str "123"); ("ingredients_text", Str "milk");
                  ("calories", Num (Fin 50 0)); ("label_is_anomaly", Num (Fin 1 0))]].

Definition caret_nutrient_twice : DataFrame :=
  mkDF ["gtin"; "ingredients_text"; "calories"; "label_is_anomaly"]
       [row_of 0 [("gtin", Str "123"); ("ingredients_text", Str "milk");
                  ("calories", Num (Fin 50 0)); ("label_is_anomaly", Num (Fin 0 0))]].

(** C5, as stated, fails: a row whose only caret was in a nutrient cell is
    labelled 1 by [clean] and 0 by [clean] applied to the result. *)
Lemma second_clean_changes_label :
  clean insertion_argsort caret_nutrient_df true
  = Ok (scenario_stdout, caret_nutrient_once)
  ∧ clean insertion_argsort caret_nutrient_once true
    = Ok (scenario_stdout, caret_nutrient_twice)
  ∧ caret_nutrient_twice ≠ caret_nutrient_once.
Proof.
  split_and!; [vm_compute; reflexivity..|].
  intros H. apply (f_equal (λ d, (λ r, get r "label_is_anomaly") <$> rows d)) in H.
  vm_compute in H. discriminate.
Qed.

(** C5, amended.  [clean] applied to the table it returned succeeds, drops
    no row and keeps the columns, the order and the index labels of the
    rows and every Identifier, Text, Tag and Flag cell.  It computes the
    label again, from the Text cells alone (the label of a row whose carets
    were all in Nutrient or Tag cells goes from 1 to 0), and reads every
    Nutrient cell again from its printed form. *)
Theorem clean_twice argsort df verbose verbose' out df' :
  ArgsortSpec argsort →
  clean argsort df verbose = Ok (out, df') →
  ∃ out' df'',
    clean argsort df' verbose' = Ok (out', df'')
    ∧ columns df'' = columns df'
    ∧ Forall2 (λ r' r'',
        index r'' = index r'
        ∧ (∀ c, c ∈ ID_COL ++ TEXT_COLS ++ TAG_COLS ++ FLAG_COLS →
                get r'' c = get r' c)
        ∧ (∀ c, c ∈ NUTRIENT_COLS → c ∈ columns df' →
                get r'' c = nutrient_value (get r' c))
        ∧ get r'' "label_is_anomaly"
          = Num (Fin (Z.b2z (text_marked (columns df') r')) 0))
      (rows df') (rows df'').
Proof.
  intros Hspec Hc.
  destruct (clean_of_cleaned argsort df verbose verbose' out df' Hspec Hc)
    as [out' Heq].
  destruct (clean_output_shape _ _ _ _ _ Hspec Hc) as (_ & Hcols & Hsrc & _).
  eexists out', _. split; [exact Heq|]. split; [done|]. cbn [rows].
  apply Forall2_fmap_r, Forall_Forall2_diag, Forall_forall. intros r' Hr'.
  destruct (Hsrc r' Hr') as (r & _ & -> & _). rewrite Hcols. split_and!.
  - done.
  - intros c Hcol. by apply get_again; apply not_nutrient.
  - intros c Hn Hin. by apply get_again_nutrient.
  - apply get_again_label.
Qed.

Lemma clean_twice_witness :
  ArgsortSpec insertion_argsort
  ∧ clean insertion_argsort caret_nutrient_df true
    = Ok (scenario_stdout, caret_nutrient_once)
  ∧ ∃ out' df'',
      clean insertion_argsort caret_nutrient_once false = Ok (out', df'')
      ∧ columns df'' = columns caret_nutrient_once
      ∧ Forall2 (λ r' r'',
          index r'' = index r'
          ∧ (∀ c, c ∈ ID_COL ++ TEXT_COLS ++ TAG_COLS ++ FLAG_COLS →
                  get r'' c = get r' c)
          ∧ (∀ c, c ∈ NUTRIENT_COLS → c ∈ columns caret_nutrient_once →
                  get r'' c = nutrient_value (get r' c))
          ∧ get r'' "label_is_anomaly"
            = Num (Fin (Z.b2z (text_marked (columns caret_nutrient_once) r')) 0))
        (rows caret_nutrient_once) (rows df'').
Proof.
  assert (H1 : ArgsortSpec insertion_argsort) by exact insertion_argsort_spec.
  assert (H2 : clean insertion_argsort caret_nutrient_df true
               = Ok (scenario_stdout, caret_nutrient_once)) by (vm_compute; reflexivity).
  split_and!; [exact H1|exact H2|].
  exact (clean_twice insertion_argsort caret_nutrient_df true false
           scenario_stdout caret_nutrient_once H1 H2).
Defined.

(** ** C3: which duplicate is kept *)

(** numpy's [argsort] for the default [kind="quicksort"] on an array of
    Python objects ([npy_aquicksort]): median-of-three partitioning down to
    ranges of at most 16 positions, which are insertion-sorted, and a
    heapsort of the ranges found past the depth limit.  [t] is the array of
    positions being sorted, [v] the keys. *)
Module Numpy.

Definition SMALL_QUICKSORT : nat := 15.

Definition at_ (t : list nat) (i : nat) : nat := nth i t 0%nat.

Definition key (v : list string) (t : list nat) (i : nat) : string :=
  nth (at_ t i) v "".

(** [INTP_SWAP( *a, *b )] *)
Definition swap (t : list nat) (i j : nat) : list nat :=
  <[i := at_ t j]> (<[j := at_ t i]> t).

Definition swap_if_less (v : list string) (t : list nat) (i j : nat) : list nat :=
  if PyStr.ltb (key v t i) (key v t j) then swap t i j else t.

(** [do { ++pi; } while (v[*pi] < vp && pi < pj);] *)
Fixpoint scan_up (fuel : nat) (v : list string) (t : list nat) (vp : string)
    (pi pj : nat) : nat :=
  let pi := S pi in
  match fuel with
  | O => pi
  | S fuel' =>
      if PyStr.ltb (key v t pi) vp && (pi <? pj)%nat
      then scan_up fuel' v t vp pi pj else pi
  end.

(** [do { --pj; } while (vp < v[*pj] && pi < pj);] *)
Fixpoint scan_down (fuel : nat) (v : list string) (t : list nat) (vp : string)
    (pi pj : nat) : nat :=
  let pj := Nat.pred pj in
  match fuel with
  | O => pj
  | S fuel' =>
      if PyStr.ltb vp (key v t pj) && (pi <? pj)%nat
      then scan_down fuel' v t vp pi pj else pj
  end.

(** The [for (;;)] loop of the partition; returns the array and [pi]. *)
Fixpoint partition_loop (fuel : nat) (v : list string) (t : list nat) (vp : string)
    (pi pj : nat) : list nat * nat :=
  let pi := scan_up (length t) v t vp pi pj in
  let pj := scan_down (length t) v t vp pi pj in
  match fuel with
  | O => (t, pi)
  | S fuel' =>
      if (pj <=? pi)%nat then (t, pi)
      else partition_loop fuel' v (swap t pi pj) vp pi pj
  end.

Definition partition (v : list string) (t : list nat) (pl pr : nat) : list nat * nat :=
  let pm := (pl + Nat.div2 (pr - pl))%nat in
  let t := swap_if_less v t pm pl in
  let t := swap_if_less v t pr pm in
  let t := swap_if_less v t pm pl in
  let vp := key v t pm in
  let pi := pl in
  let pj := (pr - 1)%nat in
  let t := swap t pm pj in
  let '(t, pi) := partition_loop (length t) v t vp pi pj in
  let pk := (pr - 1)%nat in
  (swap t pi pk, pi).

(** [while (pj > pl && vp < v[*pk]) { *pj-- = *pk--; } *pj = vi;] *)
Fixpoint shift_down (fuel : nat) (v : list string) (t : list nat) (vi : nat)
    (pl pj : nat) : list nat :=
  match fuel with
  | O => <[pj := vi]> t
  | S fuel' =>
      if (pl <? pj)%nat && PyStr.ltb (nth vi v "") (key v t (pj - 1))
      then shift_down fuel' v (<[pj := at_ t (pj - 1)]> t) vi pl (pj - 1)
      else <[pj := vi]> t
  end.

(** The insertion sort of the positions [pl..pr]. *)
Definition insertion (v : list string) (t : list nat) (pl pr : nat) : list nat :=
  foldl (λ t pi, shift_down (length t) v t (at_ t pi) pl pi) t
        (seq (S pl) (pr - pl)).

(** [npy_aheapsort] on the [n] positions from [pl]: [a = tosort - 1], so
    that [a[k]] is position [pl + k - 1]. *)
Definition heap_at (pl k : nat) : nat := (pl + k - 1)%nat.

(** [for (i = l, j = l << 1; j <= n;) { ... } a[i] = tmp;] *)
Fixpoint sift (fuel : nat) (v : list string) (t : list nat) (pl : nat)
    (tmp : nat) (i j n : nat) : list nat :=
  match fuel with
  | O => <[heap_at pl i := tmp]> t
  | S fuel' =>
      if (j <=? n)%nat then
        let j :=
          if (j <? n)%nat && PyStr.ltb (key v t (heap_at pl j)) (key v t (heap_at pl (S j)))
          then S j else j in
        if PyStr.ltb (nth tmp v "") (key v t (heap_at pl j))
        then sift fuel' v (<[heap_at pl i := at_ t (heap_at pl j)]> t) pl tmp j (j + j) n
        else <[heap_at pl i := tmp]> t
      else <[heap_at pl i := tmp]> t
  end.

Definition aheapsort (v : list string) (t : list nat) (pl n : nat) : list nat :=
  (* for (l = n >> 1; l > 0; --l) *)
  let t :=
    foldl (λ t l, sift n v t pl (at_ t (heap_at pl l)) l (l + l) n) t
          (rev (seq 1 (Nat.div2 n))) in
  (* for (; n > 1;) { tmp = a[n]; a[n] = a[1]; n -= 1; ... } *)
  foldl (λ t m,
           let tmp := at_ t (heap_at pl m) in
           let t := <[heap_at pl m := at_ t (heap_at pl 1)]> t in
           sift n v t pl tmp 1 2 (m - 1))
        t (rev (seq 2 (n - 1))).

(** [npy_get_msb]: the position of the highest bit set. *)
Definition get_msb (n : nat) : Z := Z.log2 (Z.of_nat n).

(** One range [pl..pr] with its depth [cdepth].  [popped] tells that the
    range comes from the stack (or is the whole array): only then is the
    depth tested.  Of the two parts of a partition the larger one is pushed
    on the stack and the smaller one is partitioned at once; both get the
    depth less one. *)
Fixpoint quicksort (fuel : nat) (v : list string) (t : list nat) (pl pr : nat)
    (cdepth : Z) (popped : bool) : list nat :=
  match fuel with
  | O => t
  | S fuel' =>
      if popped && (cdepth <? 0) then aheapsort v t pl (pr - pl + 1)
      else if (SMALL_QUICKSORT <? pr - pl)%nat then
        let '(t, pi) := partition v t pl pr in
        let cdepth := cdepth - 1 in
        if (pi - pl <? pr - pi)%nat then
          let t := quicksort fuel' v t pl (pi - 1) cdepth false in
          quicksort fuel' v t (pi + 1) pr cdepth true
        else
          let t := quicksort fuel' v t (pi + 1) pr cdepth false in
          quicksort fuel' v t pl (pi - 1) cdepth true
      else insertion v t pl pr
  end.

Definition argsort (v : list string) : list nat :=
  match v with
  | [] => []
  | _ =>
      quicksort (length v) v (seq 0 (length v)) 0 (length v - 1)
                (get_msb (length v) * 2) true
  end.

End Numpy.

(** Eighteen rows: identifier "1" once, then "5" seventeen times, each row
    with its own text. *)
Definition dup_row (i : nat) : Row :=
  row_of i [("gtin", Str (if (i =? 0)%nat then "1" else "5"));
            ("ingredients_text",
             Str (String.append "item " (Numeric.str_of_N (N.of_nat i))))].

Definition dup_df : DataFrame :=
  mkDF ["gtin"; "ingredients_text"] (dup_row <$> seq 0 18).

Definition dup_result : DataFrame :=
  mkDF ["gtin"; "ingredients_text"; "label_is_anomaly"]
       [row_of 0 [("gtin", Str "1"); ("ingredients_text", Str "item 0");
                  ("label_is_anomaly", Num (Fin 0 0))];
        row_of 15 [("gtin", Str "5"); ("ingredients_text", Str "item 15");
                   ("label_is_anomaly", Num (Fin 0 0))]].

Definition dup_stdout : stdout :=
  [("Initial rows", 18); ("Removed (no GTIN)", 0);
   ("Removed (empty ingredients_text)", 0); ("Removed (duplicate GTINs)", 16);
   ("Final rows", 2); ("Total removed", 16)].

Fixpoint ascending (l : list string) : bool :=
  match l with
  | a :: (b :: _) as t => PyStr.leb a b && ascending t
  | _ => true
  end.

(** C3 on the eighteen rows: the quicksort puts position 15 first among the
    rows of identifier "5" (its order is a permutation with ascending keys,
    but not the stable one), so the row kept for "5" is the one of index 15,
    not the first occurrence, of index 1. *)
Theorem quicksort_keeps_later_duplicate :
  clean Numpy.argsort dup_df true = Ok (dup_stdout, dup_result)
  ∧ index <$> rows dup_result = [0; 15]%nat
  ∧ (λ r, get r "gtin") <$> rows dup_result = [Str "1"; Str "5"]
  ∧ get (dup_row 1) "gtin" = Str "5"
  ∧ Numpy.argsort (gtin_key <$> rows dup_df)
    = [0; 15; 14; 13; 12; 11; 10; 9; 8; 7; 6; 5; 4; 3; 2; 1; 16; 17]%nat
  ∧ ascending ((λ i, nth i (gtin_key <$> rows dup_df) "")
                 <$> Numpy.argsort (gtin_key <$> rows dup_df)) = true.
Proof. split_and!; vm_compute; reflexivity. Qed.

(** With a stable sort the same table keeps the first occurrence. *)
Lemma stable_sort_keeps_first_duplicate :
  ∃ out df', clean insertion_argsort dup_df true = Ok (out, df')
             ∧ index <$> rows df' = [0; 1]%nat.
Proof. eexists _, _. split; vm_compute; reflexivity. Qed.

(** ** Identifiers of the output *)

(** Whatever the sort, no two rows of the output share an identifier, the
    identifiers ascend, and every identifier that passes the two filters is
    the identifier of an output row. *)
Theorem unique_ascending_identifiers argsort df verbose out df' :
  ArgsortSpec argsort →
  clean argsort df verbose = Ok (out, df') →
  NoDup ((λ r, get r "gtin") <$> rows df')
  ∧ StronglySorted (λ a b, PyStr.leb (gtin_key a) (gtin_key b) = true) (rows df')
  ∧ ∀ r, r ∈ survivors (prepared df) →
         ∃ r', r' ∈ rows df' ∧ get r' "gtin" = get r "gtin".
Proof.
  intros Hspec Hc.
  destruct (clean_output_shape _ _ _ _ _ Hspec Hc) as (Hg & _ & _ & Hnd & Hsort).
  split_and!; [done|done|].
  destruct (clean_ok argsort verbose df Hspec Hg) as (out' & rs & Heq & HF).
  rewrite Heq in Hc. injection Hc as <- <-. cbn [rows].
  intros r Hr. rewrite <- (sorted_Permutation _ _ _ Hspec HF) in Hr.
  apply (keep_first_covers (λ r, get r "gtin") [] rs r Hr).
  by intros ?%elem_of_nil.
Qed.

Lemma unique_ascending_identifiers_witness :
  ArgsortSpec insertion_argsort
  ∧ clean insertion_argsort tags_df true = Ok (tags_stdout, tags_result)
  ∧ NoDup ((λ r, get r "gtin") <$> rows tags_result)
  ∧ StronglySorted (λ a b, PyStr.leb (gtin_key a) (gtin_key b) = true)
      (rows tags_result)
  ∧ ∀ r, r ∈ survivors (prepared tags_df) →
         ∃ r', r' ∈ rows tags_result ∧ get r' "gtin" = get r "gtin".
Proof.
  assert (H1 : ArgsortSpec insertion_argsort) by exact insertion_argsort_spec.
  assert (H2 : clean insertion_argsort tags_df true = Ok (tags_stdout, tags_result))
    by (vm_compute; reflexivity).
  split_and!; [exact H1|exact H2|..];
    apply (unique_ascending_identifiers insertion_argsort tags_df true
             tags_stdout tags_result H1 H2).
Defined.

(** With a stable sort, the row kept for an identifier is its first
    occurrence: in the rows that pass the two filters, taken in the order
    of the input, no row before it has its identifier. *)
Theorem first_occurrence_if_stable argsort df verbose out df' r' :
  StableArgsort argsort →
  clean argsort df verbose = Ok (out, df') →
  r' ∈ rows df' →
  ∃ l1 l2, survivors (prepared df) = l1 ++ r' :: l2
           ∧ Forall (λ r, get r "gtin" ≠ get r' "gtin") l1.
Proof.
  intros Hstable Hc Hr'.
  pose proof (StableArgsort_spec _ Hstable) as Hspec.
  assert (Hg : "gtin" ∈ columns df).
  { destruct (decide ("gtin" ∈ columns df)); [done|]. by rewrite clean_no_gtin in Hc. }
  destruct (clean_ok argsort verbose df Hspec Hg) as (out' & rs & Heq & HF).
  rewrite Heq in Hc. injection Hc as <- <-. cbn [rows] in Hr'.
  set (S := survivors (prepared df)) in *.
  set (keys := gtin_key <$> S) in *.
  destruct (keep_first_first _ _ _ _ Hr') as (a & b & -> & Ha).
  apply Forall2_app_inv_r in HF as (ia & ib' & Hia & Hib' & Hidx).
  apply Forall2_cons_inv_r in Hib' as (p & ib & Hp & Hib & ->).
  pose proof (stable_sorted _ Hstable keys) as Hsorted. rewrite Hidx in Hsorted.
  apply StronglySorted_app_1_r in Hsorted.
  apply StronglySorted_inv in Hsorted as [_ Hlater]. rewrite Forall_forall in Hlater.
  assert (Hkey : ∀ i r, S !! i = Some r → nth i keys "" = gtin_key r).
  { intros i r Hi. apply nth_lookup_Some. unfold keys. by rewrite list_lookup_fmap, Hi. }
  exists (take p S), (drop (Datatypes.S p) S). split.
  { by rewrite take_drop_middle. }
  apply Forall_lookup_2. intros q rq [Hq Hlt]%lookup_take_Some.
  assert (Hin : q ∈ argsort keys).
  { rewrite (stable_perm _ Hstable). apply elem_of_seq. unfold keys.
    rewrite length_fmap. apply lookup_lt_Some in Hp. lia. }
  rewrite Hidx in Hin. apply elem_of_app in Hin as [Hin|Hin].
  - apply list_elem_of_lookup_1 in Hin as [k Hk].
    destruct (Forall2_lookup_l _ _ _ _ _ Hia Hk) as (r & Hr & Hqr).
    rewrite Hq in Hqr. injection Hqr as <-.
    rewrite Forall_forall in Ha. apply Ha. by eapply list_elem_of_lookup_2.
  - apply elem_of_cons in Hin as [->|Hin]; [lia|].
    intros Heq'. destruct (Hlater q Hin) as [Hlt'|[_ Hlt']]; [|lia].
    rewrite (Hkey _ _ Hp), (Hkey _ _ Hq) in Hlt'. unfold gtin_key in Hlt'.
    rewrite Heq' in Hlt'. apply ltb_lt in Hlt'. by apply lt_irrefl in Hlt'.
Qed.

Lemma first_occurrence_if_stable_witness :
  StableArgsort insertion_argsort
  ∧ clean insertion_argsort tags_df true = Ok (tags_stdout, tags_result)
  ∧ tags_row1 ∈ rows tags_result
  ∧ ∃ l1 l2, survivors (prepared tags_df) = l1 ++ tags_row1 :: l2
             ∧ Forall (λ r, get r "gtin" ≠ get tags_row1 "gtin") l1.
Proof.
  assert (H1 : StableArgsort insertion_argsort) by exact insertion_argsort_stable.
  assert (H2 : clean insertion_argsort tags_df true = Ok (tags_stdout, tags_result))
    by (vm_compute; reflexivity).
  assert (H3 : tags_row1 ∈ rows tags_result) by (cbn; right; left).
  split_and!; [exact H1|exact H2|exact H3|].
  exact (first_occurrence_if_stable insertion_argsort tags_df true
           tags_stdout tags_result tags_row1 H1 H2 H3).
Defined.

(** ** The counters *)

Lemma length_filter_fmap {A B} (f : A -> B) (P : B -> Prop) `{∀ x, Decision (P x)}
    (l : list A) :
  length (filter P (f <$> l)) = length (filter (λ x, P (f x)) l).
Proof.
  induction l as [|a l IH]; [done|]. cbn [fmap list_fmap].
  rewrite !filter_cons. destruct (decide (P (f a))); cbn; by rewrite IH.
Qed.

Lemma length_filter_split {A} (P Q : A -> Prop) `{∀ x, Decision (P x)}
    `{∀ x, Decision (Q x)} (l : list A) :
  (∀ x, P x ↔ ¬ Q x) →
  (length (filter P l) + length (filter Q l) = length l)%nat.
Proof.
  intros HPQ. induction l as [|a l IH]; [done|].
  rewrite !filter_cons. pose proof (HPQ a).
  destruct (decide (P a)), (decide (Q a)); cbn; try tauto; lia.
Qed.

(** What [finish] prints, counter by counter. *)
Lemma finish_report argsort n d :
  ArgsortSpec argsort → "gtin" ∈ columns d →
  ∃ rs,
    let s1 := filter (λ r, forallb (λ c, Series.notna (get r c)) ["gtin"] = true)
                     (rows d) in
    let kept := keep_first (λ r, get r "gtin") [] rs in
    finish argsort true n d
    = Ok ([("Initial rows", n);
           ("Removed (no GTIN)", len d - Z.of_nat (length s1));
           ("Removed (empty ingredients_text)",
            Z.of_nat (length s1) - Z.of_nat (length (survivors d)));
           ("Removed (duplicate GTINs)",
            Z.of_nat (length (survivors d)) - Z.of_nat (length kept));
           ("Final rows", Z.of_nat (length kept));
           ("Total removed", n - Z.of_nat (length kept))],
          mkDF (columns d) kept)
    ∧ rs ≡ₚ survivors d.
Proof.
  intros Hspec Hg. unfold finish, dropna.
  rewrite filter_cons, decide_False, filter_nil by (by intros ?).
  cbn [mbind result_bind]. unfold survivors.
  set (s1 := filter _ (rows d)).
  destruct (decide ("ingredients_text" ∈ columns (where_ _ d))) as [Hi|Hi];
    cbn [columns where_] in Hi.
  - rewrite (decide_True _ _ Hi).
    set (d2 := where_ (λ r, has_ingredients (get r "ingredients_text")) _).
    destruct (sort_values_ok argsort "gtin" d2 Hspec Hg) as (rs & Hsort & HF).
    rewrite Hsort. cbn [mbind result_bind]. unfold drop_duplicates.
    cbn [columns rows]. rewrite decide_True by done.
    cbn [mbind result_bind]. exists rs.
    assert (Hperm : rs ≡ₚ rows d2).
    { eapply take_Permutation; [|exact HF].
      rewrite (argsort_perm _ Hspec). by rewrite length_fmap. }
    split; [|exact Hperm].
    unfold len. subst d2. cbn [rows where_ columns]. done.
  - rewrite (decide_False _ _ Hi).
    set (d2 := where_ _ d).
    destruct (sort_values_ok argsort "gtin" d2 Hspec Hg) as (rs & Hsort & HF).
    rewrite Hsort. cbn [mbind result_bind]. unfold drop_duplicates.
    cbn [columns rows]. rewrite decide_True by done.
    cbn [mbind result_bind]. exists rs.
    assert (Hperm : rs ≡ₚ rows d2).
    { eapply take_Permutation; [|exact HF].
      rewrite (argsort_perm _ Hspec). by rewrite length_fmap. }
    split; [|exact Hperm].
    unfold len. subst d2. cbn [rows where_ columns]. fold s1.
    replace (Z.of_nat (length s1) - Z.of_nat (length s1)) with 0 by lia. done.
Qed.

Lemma notna_astype_string c :
  Series.notna (Series.astype_string c) = negb (Series.isna c).
Proof. by destruct c. Qed.

Lemma notna_gtin_prepared (C : list string) r :
  "gtin" ∈ C →
  forallb (λ c, Series.notna (get (prepare_row C r) c)) ["gtin"]
  = negb (Series.isna (get r "gtin")).
Proof.
  intros Hg. cbn [forallb]. rewrite andb_true_r.
  rewrite get_cleaned;
    [|apply COLS_TO_KEEP_groups; left; apply gtin_is_id_text|done].
  rewrite cleaned_cell_text by apply gtin_is_id_text. apply notna_astype_string.
Qed.

(** The six counters [clean] prints add up: the three removal counters are
    not negative, their sum is the total removed, and the final count is
    the number of rows returned.  The first is the number of input rows
    whose GTIN is missing; the second is 0 when the input has no column
    [ingredients_text]. *)
Theorem counters_account argsort df out df' :
  ArgsortSpec argsort →
  clean argsort df true = Ok (out, df') →
  ∃ a b c : Z,
    out = [("Initial rows", len df); ("Removed (no GTIN)", a);
           ("Removed (empty ingredients_text)", b);
           ("Removed (duplicate GTINs)", c);
           ("Final rows", len df'); ("Total removed", len df - len df')]
    ∧ 0 <= a ∧ 0 <= b ∧ 0 <= c
    ∧ a + b + c = len df - len df'
    ∧ a = Z.of_nat (length (filter (λ r, Series.isna (get r "gtin") = true) (rows df)))
    ∧ ("ingredients_text" ∉ columns df → b = 0).
Proof.
  intros Hspec Hc.
  assert (Hg : "gtin" ∈ columns df).
  { destruct (decide ("gtin" ∈ columns df)); [done|]. by rewrite clean_no_gtin in Hc. }
  rewrite clean_eq in Hc.
  destruct (finish_report argsort (len df) (prepared df) Hspec) as (rs & Heq & Hperm).
  { rewrite prepared_eq. cbn [columns]. by apply gtin_in_out_columns. }
  cbv zeta in Heq.
  set (s1 := filter _ (rows (prepared df))) in *.
  set (kept := keep_first _ [] rs) in *.
  assert (Hout : Ok (out, df') = Ok
    ([("Initial rows", len df);
      ("Removed (no GTIN)", len (prepared df) - Z.of_nat (length s1));
      ("Removed (empty ingredients_text)",
       Z.of_nat (length s1) - Z.of_nat (length (survivors (prepared df))));
      ("Removed (duplicate GTINs)",
       Z.of_nat (length (survivors (prepared df))) - Z.of_nat (length kept));
      ("Final rows", Z.of_nat (length kept));
      ("Total removed", len df - Z.of_nat (length kept))],
     mkDF (columns (prepared df)) kept)).
  { rewrite <- Hc. exact Heq. }
  clear Hc Heq.
  pose proof (f_equal (λ x, match x with Ok p => p.1 | Raise _ => out end) Hout) as Ho.
  pose proof (f_equal (λ x, match x with Ok p => p.2 | Raise _ => df' end) Hout) as Hd.
  cbn [fst snd] in Ho, Hd. clear Hout. subst out df'.
  assert (H1 : (length s1 <= length (rows (prepared df)))%nat) by apply length_filter.
  assert (H2 : (length (survivors (prepared df)) <= length s1)%nat).
  { unfold survivors. fold s1. destruct (decide _); [apply length_filter|done]. }
  assert (H3 : (length kept <= length (survivors (prepared df)))%nat).
  { rewrite <- (Permutation_length Hperm). apply sublist_length, keep_first_sublist. }
  assert (Hlen : length (rows (prepared df)) = length (rows df)).
  { rewrite prepared_eq. cbn [rows]. by rewrite length_fmap. }
  assert (Ha : (length s1 + length (filter (λ r, Series.isna (get r "gtin") = true) (rows df))
                = length (rows df))%nat).
  { unfold s1. rewrite prepared_eq. cbn [rows]. rewrite length_filter_fmap.
    apply length_filter_split. intros r. rewrite notna_gtin_prepared by done.
    destruct (Series.isna (get r "gtin")); cbn; split; try done; by intros []. }
  eexists _, _, _. split; [reflexivity|].
  unfold len in *. cbn [rows]. rewrite Hlen.
  split_and!; try lia.
  intros Hi. unfold survivors. fold s1.
  rewrite decide_False; [lia|].
  rewrite prepared_eq. cbn [columns]. by rewrite ingredients_in_out_columns.
Qed.

Lemma counters_account_witness :
  ArgsortSpec insertion_argsort
  ∧ clean insertion_argsort tags_df true = Ok (tags_stdout, tags_result)
  ∧ ∃ a b c : Z,
      tags_stdout = [("Initial rows", len tags_df); ("Removed (no GTIN)", a);
                     ("Removed (empty ingredients_text)", b);
                     ("Removed (duplicate GTINs)", c);
                     ("Final rows", len tags_result);
                     ("Total removed", len tags_df - len tags_result)]
      ∧ 0 <= a ∧ 0 <= b ∧ 0 <= c
      ∧ a + b + c = len tags_df - len tags_result
      ∧ a = Z.of_nat (length (filter (λ r, Series.isna (get r "gtin") = true)
                                     (rows tags_df)))
      ∧ ("ingredients_text" ∉ columns tags_df → b = 0).
Proof.
  assert (H1 : ArgsortSpec insertion_argsort) by exact insertion_argsort_spec.
  assert (H2 : clean insertion_argsort tags_df true = Ok (tags_stdout, tags_result))
    by (vm_compute; reflexivity).
  split_and!; [exact H1|exact H2|].
  exact (counters_account insertion_argsort tags_df tags_stdout tags_result H1 H2).
Defined.

(** ** Columns and cells of the output *)

(** The columns of the output are the schema columns of the input, in
    schema order, then the label; every output row has a cell in exactly
    these columns.  Columns outside the schema are dropped. *)
Theorem output_columns argsort df verbose out df' :
  ArgsortSpec argsort →
  clean argsort df verbose = Ok (out, df') →
  columns df'
  = filter (λ c, c ∈ columns df)
           (ID_COL ++ TEXT_COLS ++ NUTRIENT_COLS ++ TAG_COLS ++ FLAG_COLS)
    ++ ["label_is_anomaly"]
  ∧ ∀ r' c, r' ∈ rows df' → (is_Some (cells r' !! c) ↔ c ∈ columns df').
Proof.
  intros Hspec Hc.
  destruct (clean_output_shape _ _ _ _ _ Hspec Hc) as (_ & Hcols & Hsrc & _).
  split.
  - rewrite Hcols. apply out_columns_eq.
  - intros r' c Hr'. destruct (Hsrc r' Hr') as (r & _ & -> & _).
    rewrite Hcols. unfold prepare_row. cbn [cells].
    rewrite lookup_list_to_map_fn.
    destruct (decide (c ∈ out_columns (columns df))) as [Hin|Hin].
    + split; [done|]. by eexists.
    + split; [by intros [? ?]|done].
Qed.

Lemma output_columns_witness :
  ArgsortSpec insertion_argsort
  ∧ clean insertion_argsort labelled_df true = Ok (scenario_stdout, labelled_result)
  ∧ columns labelled_result
    = filter (λ c, c ∈ columns labelled_df)
             (ID_COL ++ TEXT_COLS ++ NUTRIENT_COLS ++ TAG_COLS ++ FLAG_COLS)
      ++ ["label_is_anomaly"]
  ∧ ∀ r' c, r' ∈ rows labelled_result →
            (is_Some (cells r' !! c) ↔ c ∈ columns labelled_result).
Proof.
  assert (H1 : ArgsortSpec insertion_argsort) by exact insertion_argsort_spec.
  assert (H2 : clean insertion_argsort labelled_df true
               = Ok (scenario_stdout, labelled_result)) by (vm_compute; reflexivity).
  split_and!; [exact H1|exact H2|..];
    apply (output_columns insertion_argsort labelled_df true
             scenario_stdout labelled_result H1 H2).
Defined.

(** Identifier and Text cells are only cast to strings: a string cell is
    returned as it is, whitespace and carets included, another cell as its
    [str], and a missing Text cell stays missing. *)
Theorem text_cells_kept argsort df verbose out df' r' :
  ArgsortSpec argsort →
  clean argsort df verbose = Ok (out, df') →
  r' ∈ rows df' →
  ∃ r, r ∈ rows df ∧ index r = index r' ∧
    ∀ c, c ∈ ID_COL ++ TEXT_COLS → c ∈ columns df →
      (∀ s, get r c = Str s → get r' c = Str s)
      ∧ (Series.isna (get r c) = false → get r' c = Str (str_of (get r c)))
      ∧ (Series.isna (get r c) = true → get r' c = NA).
Proof.
  intros Hspec Hc Hr'.
  destruct (clean_row_source _ _ _ _ _ _ Hspec Hc Hr') as (r & Hr & -> & _).
  exists r. split_and!; [done|done|]. intros c Ht HC.
  rewrite get_cleaned; [|apply COLS_TO_KEEP_groups; by left|done].
  rewrite cleaned_cell_text by done. unfold Series.astype_string.
  split_and!.
  - by intros s ->.
  - by intros ->.
  - by intros ->.
Qed.

Lemma text_cells_kept_witness :
  ArgsortSpec insertion_argsort
  ∧ clean insertion_argsort scenario_df true = Ok (scenario_stdout, scenario_result)
  ∧ scenario_row ∈ rows scenario_result
  ∧ ∃ r, r ∈ rows scenario_df ∧ index r = index scenario_row ∧
      ∀ c, c ∈ ID_COL ++ TEXT_COLS → c ∈ columns scenario_df →
        (∀ s, get r c = Str s → get scenario_row c = Str s)
        ∧ (Series.isna (get r c) = false → get scenario_row c = Str (str_of (get r c)))
        ∧ (Series.isna (get r c) = true → get scenario_row c = NA).
Proof.
  assert (H1 : ArgsortSpec insertion_argsort) by exact insertion_argsort_spec.
  assert (H2 : clean insertion_argsort scenario_df true
               = Ok (scenario_stdout, scenario_result)) by (vm_compute; reflexivity).
  assert (H3 : scenario_row ∈ rows scenario_result) by (cbn; left).
  split_and!; [exact H1|exact H2|exact H3|].
  exact (text_cells_kept insertion_argsort scenario_df true
           scenario_stdout scenario_result scenario_row H1 H2 H3).
Defined.

(** ** What the result depends on *)

Lemma cleaned_cell_ext_schema (C1 C2 : list string) r1 r2 c :
  (∀ c, c ∈ BASE_COLS → (c ∈ C1 ↔ c ∈ C2)) →
  (∀ c, c ∈ BASE_COLS → c ∈ C1 → get r1 c = get r2 c) →
  c ∈ out_columns C1 →
  cleaned_cell C1 r1 c = cleaned_cell C2 r2 c.
Proof.
  intros HC Hr Hin. unfold cleaned_cell.
  destruct (decide (c = LABEL)) as [->|Hne].
  - do 3 f_equal. unfold anomaly. apply existsb_ext_in. intros col Hcol.
    apply caret_col_base in Hcol as [Hb Hl].
    destruct (decide (col ∈ C1)) as [H1|H1].
    + rewrite Hr by done. f_equal. apply bool_decide_ext. by apply HC.
    + rewrite !bool_decide_eq_false_2; [done| |done]. by rewrite <- HC.
  - apply elem_of_out_columns in Hin as [[HK H1]|?]; [|done].
    rewrite COLS_TO_KEEP_eq, elem_of_app, list_elem_of_singleton in HK.
    destruct HK as [Hb|?]; [|done]. by rewrite !Hr.
Qed.

Lemma prepare_row_ext_schema (C1 C2 : list string) r1 r2 :
  index r1 = index r2 →
  (∀ c, c ∈ BASE_COLS → (c ∈ C1 ↔ c ∈ C2)) →
  (∀ c, c ∈ BASE_COLS → c ∈ C1 → get r1 c = get r2 c) →
  prepare_row C1 r1 = prepare_row C2 r2.
Proof.
  intros Hi HC Hr. unfold prepare_row. rewrite Hi, <- (out_columns_ext _ _ HC).
  f_equal. f_equal. apply list_fmap_ext. intros _ c Hc%list_elem_of_lookup_2.
  f_equal. by apply cleaned_cell_ext_schema.
Qed.

(** [clean] reads the schema columns only: two tables with the same schema
    columns, the same index labels and the same cells in these columns
    give the same result, whatever their other columns hold. *)
Theorem only_schema_columns_matter argsort df1 df2 verbose :
  (∀ c, c ∈ ID_COL ++ TEXT_COLS ++ NUTRIENT_COLS ++ TAG_COLS ++ FLAG_COLS →
        (c ∈ columns df1 ↔ c ∈ columns df2)) →
  Forall2 (λ r1 r2,
             index r1 = index r2
             ∧ ∀ c, c ∈ ID_COL ++ TEXT_COLS ++ NUTRIENT_COLS ++ TAG_COLS ++ FLAG_COLS →
                    c ∈ columns df1 → get r1 c = get r2 c)
          (rows df1) (rows df2) →
  clean argsort df1 verbose = clean argsort df2 verbose.
Proof.
  intros HC HF. rewrite !clean_eq. f_equal.
  - unfold len. by rewrite (Forall2_length _ _ _ HF).
  - rewrite !prepared_eq. f_equal; [by apply out_columns_ext|].
    induction HF as [|r1 r2 l1 l2 [Hi Hr] HF IH]; [done|].
    cbn [fmap list_fmap]. f_equal; [|exact IH].
    by apply prepare_row_ext_schema.
Qed.

Definition extra_columns_df : DataFrame :=
  mkDF ["brand"; "gtin"; "ingredients_text"; "calories"]
       [row_of 0 [("brand", Str "acme"); ("gtin", Str "123");
                  ("ingredients_text", Str "milk^"); ("calories", Str "50^")]].

Lemma only_schema_columns_matter_witness :
  (∀ c, c ∈ ID_COL ++ TEXT_COLS ++ NUTRIENT_COLS ++ TAG_COLS ++ FLAG_COLS →
        (c ∈ columns extra_columns_df ↔ c ∈ columns scenario_df))
  ∧ clean insertion_argsort extra_columns_df true
    = clean insertion_argsort scenario_df true.
Proof.
  assert (H1 : ∀ c, c ∈ ID_COL ++ TEXT_COLS ++ NUTRIENT_COLS ++ TAG_COLS ++ FLAG_COLS →
                    (c ∈ columns extra_columns_df ↔ c ∈ columns scenario_df)).
  { intros c Hc. cbn [columns extra_columns_df scenario_df].
    rewrite (elem_of_cons _ c "brand"). split; [|tauto].
    intros [->|?]; [|done]. exfalso. revert Hc.
    apply (bool_decide_unpack _). vm_compute. exact I. }
  split; [exact H1|].
  apply (only_schema_columns_matter insertion_argsort extra_columns_df scenario_df true H1).
  repeat constructor. intros c Hc _.
  assert (Hne : c ≠ "brand").
  { intros ->. revert Hc. apply (bool_decide_unpack _). vm_compute. exact I. }
  unfold get, row_of. cbn [cells].
  rewrite (list_to_map_cons _ "brand"), lookup_insert_ne by done. done.
Defined.

Lemma filter_fmap_comm {A B} (f : A -> B) (P : B -> Prop) `{∀ x, Decision (P x)}
    (l : list A) :
  filter P (f <$> l) = f <$> filter (λ x, P (f x)) l.
Proof.
  induction l as [|a l IH]; [done|]. cbn [fmap list_fmap].
  rewrite !filter_cons. destruct (decide (P (f a))); cbn; by rewrite IH.
Qed.

(** On distinct keys all sorts agree. *)
Lemma argsort_unique a1 a2 keys :
  ArgsortSpec a1 → ArgsortSpec a2 → NoDup keys → a1 keys = a2 keys.
Proof.
  intros [Hp1 Hs1] [Hp2 Hs2] Hnd.
  apply (StronglySorted_unique_strong (key_le keys)); [|apply Hs1|apply Hs2|].
  - intros i j Hi Hj Hij Hji. unfold key_le in *.
    pose proof (leb_antisym _ _ Hij Hji) as Heq.
    rewrite Hp1 in Hi. rewrite Hp2 in Hj.
    apply elem_of_seq in Hi. apply elem_of_seq in Hj.
    destruct (lookup_lt_is_Some_2 keys i) as [ki Hki]; [lia|].
    destruct (lookup_lt_is_Some_2 keys j) as [kj Hkj]; [lia|].
    rewrite (nth_lookup_Some _ _ _ _ Hki), (nth_lookup_Some _ _ _ _ Hkj) in Heq.
    subst kj. by eapply NoDup_lookup.
  - by rewrite Hp1, Hp2.
Qed.

Lemma finish_argsort_ext a1 a2 verbose n d :
  a1 (gtin_key <$> survivors d) = a2 (gtin_key <$> survivors d) →
  finish a1 verbose n d = finish a2 verbose n d.
Proof.
  intros H. destruct (decide ("gtin" ∈ columns d)) as [Hg|Hg]; cycle 1.
  { by rewrite !finish_no_gtin. }
  unfold finish, dropna.
  rewrite filter_cons, decide_False, filter_nil by (by intros ?).
  cbn [mbind result_bind]. unfold survivors in H.
  destruct (decide ("ingredients_text" ∈ columns (where_ _ d))) as [Hi|Hi];
    cbn [columns where_] in Hi.
  - rewrite (decide_True _ _ Hi) in H. unfold sort_values.
    cbn [columns rows where_]. unfold gtin_key in H. by rewrite H.
  - rewrite (decide_False _ _ Hi) in H. unfold sort_values.
    cbn [columns rows where_]. unfold gtin_key in H. by rewrite H.
Qed.

Lemma gtin_key_prepared (C : list string) r :
  "gtin" ∈ C → Series.isna (get r "gtin") = false →
  gtin_key (prepare_row C r) = str_of (get r "gtin").
Proof.
  intros Hg Hn. unfold gtin_key.
  rewrite get_cleaned;
    [|apply COLS_TO_KEEP_groups; left; apply gtin_is_id_text|done].
  rewrite cleaned_cell_text by apply gtin_is_id_text.
  unfold Series.astype_string. by rewrite Hn.
Qed.

Lemma survivors_keys_sublist df :
  "gtin" ∈ columns df →
  gtin_key <$> survivors (prepared df)
  `sublist_of` (λ r, str_of (get r "gtin"))
                 <$> filter (λ r, Series.isna (get r "gtin") = false) (rows df).
Proof.
  intros Hg.
  assert (Hs1 : gtin_key <$> filter (λ r, forallb (λ c, Series.notna (get r c)) ["gtin"] = true)
                                    (rows (prepared df))
                = (λ r, str_of (get r "gtin"))
                    <$> filter (λ r, Series.isna (get r "gtin") = false) (rows df)).
  { rewrite prepared_eq. cbn [rows]. rewrite filter_fmap_comm, <- list_fmap_compose.
    rewrite (filter_ext_in _ (λ r, Series.isna (get r "gtin") = false)).
    - apply list_fmap_ext. intros _ r [Hn _]%list_elem_of_lookup_2%list_elem_of_filter.
      cbn [compose]. by apply gtin_key_prepared.
    - intros r _. rewrite notna_gtin_prepared by done.
      by destruct (Series.isna (get r "gtin")). }
  rewrite <- Hs1. apply fmap_sublist. unfold survivors.
  destruct (decide _); [apply sublist_filter|done].
Qed.

(** When the identifiers of the input that are not missing are pairwise
    distinct, the result does not depend on the sorting algorithm. *)
Theorem any_sort_when_identifiers_distinct a1 a2 df verbose :
  ArgsortSpec a1 → ArgsortSpec a2 →
  NoDup ((λ r, str_of (get r "gtin"))
           <$> filter (λ r, Series.isna (get r "gtin") = false) (rows df)) →
  clean a1 df verbose = clean a2 df verbose.
Proof.
  intros H1 H2 Hnd.
  destruct (decide ("gtin" ∈ columns df)) as [Hg|Hg]; cycle 1.
  { by rewrite !clean_no_gtin. }
  rewrite !clean_eq. apply finish_argsort_ext. apply argsort_unique; [done..|].
  eapply sublist_NoDup; [exact Hnd|exact (survivors_keys_sublist df Hg)].
Qed.

Lemma any_sort_when_identifiers_distinct_witness :
  ArgsortSpec insertion_argsort ∧ ArgsortSpec insertion_argsort
  ∧ NoDup ((λ r, str_of (get r "gtin"))
             <$> filter (λ r, Series.isna (get r "gtin") = false) (rows tags_df))
  ∧ clean insertion_argsort tags_df true = clean insertion_argsort tags_df true.
Proof.
  assert (H1 : ArgsortSpec insertion_argsort) by exact insertion_argsort_spec.
  assert (H2 : NoDup ((λ r, str_of (get r "gtin"))
             <$> filter (λ r, Series.isna (get r "gtin") = false) (rows tags_df))).
  { apply (bool_decide_unpack _). vm_compute. exact I. }
  split_and!; [exact H1|exact H1|exact H2|].
  exact (any_sort_when_identifiers_distinct insertion_argsort insertion_argsort
           tags_df true H1 H1 H2).
Defined.

(** ** Tables on which [clean] changes nothing more *)

Lemma anomaly_text_only (C : list string) r :
  (∀ c, c ∈ NUTRIENT_COLS ++ TAG_COLS → c ∈ C → has_caret (get r c) = false) →
  anomaly C r = text_marked (out_columns C) (prepare_row C r).
Proof.
  intros H. unfold anomaly, text_marked. rewrite !existsb_app.
  rewrite (existsb_false _ NUTRIENT_COLS), (existsb_false _ TAG_COLS).
  - rewrite !orb_false_r. apply existsb_ext_in. intros c Hc.
    assert (Hb : c ∈ BASE_COLS).
    { unfold BASE_COLS. rewrite !elem_of_app. tauto. }
    destruct (decide (c ∈ C)) as [HC|HC].
    + rewrite !bool_decide_eq_true_2; [|by apply base_in_out_columns|done].
      cbn [andb]. rewrite get_cleaned; [|rewrite COLS_TO_KEEP_eq, elem_of_app; by left|done].
      rewrite cleaned_cell_text by (apply elem_of_app; by right).
      by rewrite has_caret_astype_string.
    + rewrite !bool_decide_eq_false_2; [done| |done].
      by rewrite base_in_out_columns.
  - intros c Hc. destruct (decide (c ∈ C)) as [HC|HC].
    + rewrite H; [by rewrite andb_false_r| |done]. apply elem_of_app. by right.
    + by rewrite bool_decide_eq_false_2.
  - intros c Hc. destruct (decide (c ∈ C)) as [HC|HC].
    + rewrite H; [by rewrite andb_false_r| |done]. apply elem_of_app. by left.
    + by rewrite bool_decide_eq_false_2.
Qed.

(** When no Nutrient or Tag cell of the input ends with a caret, and every
    Nutrient cell of the table [clean] returns is read back unchanged from
    its printed form, that table is a fixed point: [clean] applied to it
    returns it unchanged. *)
Theorem clean_fixed_point argsort df verbose verbose' out df' :
  ArgsortSpec argsort →
  clean argsort df verbose = Ok (out, df') →
  (∀ r c, r ∈ rows df → c ∈ NUTRIENT_COLS ++ TAG_COLS → c ∈ columns df →
          PyStr.endswith (PyStr.strip (str_of (get r c))) "^" = false) →
  (∀ r' c, r' ∈ rows df' → c ∈ NUTRIENT_COLS → c ∈ columns df →
           nutrient_value (get r' c) = get r' c) →
  ∃ out', clean argsort df' verbose' = Ok (out', df').
Proof.
  intros Hspec Hc Hno Hback.
  destruct (clean_of_cleaned argsort df verbose verbose' out df' Hspec Hc) as [out' Heq].
  exists out'. rewrite Heq. f_equal. f_equal.
  destruct (clean_output_shape _ _ _ _ _ Hspec Hc) as (_ & Hcols & Hsrc & _).
  destruct df' as [K' rs']. cbn [columns rows] in *. f_equal.
  rewrite <- (list_fmap_id rs') at 2. apply list_fmap_ext.
  intros _ r' Hr'%list_elem_of_lookup_2. cbn [id].
  pose proof (λ c, Hback r' c Hr') as Hb.
  destruct (Hsrc r' Hr') as (r & Hr & -> & _). subst K'.
  set (C := columns df) in *.
  apply row_eq; [done|]. apply map_eq. intros c.
  unfold prepare_row at 1. cbn [cells]. rewrite lookup_list_to_map_fn.
  rewrite out_columns_idem.
  unfold prepare_row at 2. cbn [cells]. rewrite lookup_list_to_map_fn.
  destruct (decide (c ∈ out_columns C)) as [Hin|Hin]; [|done]. f_equal.
  destruct (decide (c = LABEL)) as [->|Hne].
  - unfold cleaned_cell. rewrite !decide_True by done.
    rewrite anomaly_prepared. do 3 f_equal. symmetry.
    apply anomaly_text_only. intros c Hcn HC.
    rewrite has_caret_unfold. by apply Hno.
  - destruct (decide (c ∈ NUTRIENT_COLS)) as [Hn|Hn].
    + assert (HC : c ∈ C).
      { apply elem_of_out_columns in Hin as [[_ ?]|?]; done. }
      specialize (Hb c Hn HC). rewrite get_prepare_row, decide_True in Hb by done.
      rewrite (cleaned_cell_nutrient (out_columns C)) by done.
      rewrite get_prepare_row, decide_True by done. exact Hb.
    + by apply cleaned_cell_again.
Qed.

(** A table with no caret in a Nutrient cell, and its cleaned form. *)
Definition numeric_df : DataFrame :=
  mkDF ["gtin"; "ingredients_text"; "calories"; "sodium"]
       [row_of 0 [("gtin", Num (Fin 40 0)); ("ingredients_text", Str "corn");
                  ("calories", Str "125.5"); ("sodium", NaN)]].

Definition numeric_row : Row :=
  row_of 0 [("gtin", Str "40"); ("ingredients_text", Str "corn");
            ("calories", Num (Fin 1255 (-1))); ("sodium", Num (Fin (-1) 0));
            ("label_is_anomaly", Num (Fin 0 0))].

Definition numeric_result : DataFrame :=
  mkDF ["gtin"; "ingredients_text"; "calories"; "sodium"; "label_is_anomaly"]
       [numeric_row].

Lemma clean_fixed_point_witness :
  ArgsortSpec insertion_argsort
  ∧ clean insertion_argsort numeric_df true = Ok (scenario_stdout, numeric_result)
  ∧ (∀ r c, r ∈ rows numeric_df → c ∈ NUTRIENT_COLS ++ TAG_COLS →
            c ∈ columns numeric_df →
            PyStr.endswith (PyStr.strip (str_of (get r c))) "^" = false)
  ∧ (∀ r' c, r' ∈ rows numeric_result → c ∈ NUTRIENT_COLS →
             c ∈ columns numeric_df →
             nutrient_value (get r' c) = get r' c)
  ∧ ∃ out', clean insertion_argsort numeric_result false = Ok (out', numeric_result).
Proof.
  assert (H1 : ArgsortSpec insertion_argsort) by exact insertion_argsort_spec.
  assert (H2 : clean insertion_argsort numeric_df true
               = Ok (scenario_stdout, numeric_result)) by (vm_compute; reflexivity).
  assert (HF : Forall (λ r, Forall (λ c,
                 PyStr.endswith (PyStr.strip (str_of (get r c))) "^" = false)
                 (columns numeric_df)) (rows numeric_df)).
  { apply (bool_decide_unpack _). vm_compute. exact I. }
  assert (H3 : ∀ r c, r ∈ rows numeric_df → c ∈ NUTRIENT_COLS ++ TAG_COLS →
                      c ∈ columns numeric_df →
                      PyStr.endswith (PyStr.strip (str_of (get r c))) "^" = false).
  { intros r c Hr _ Hc. rewrite Forall_forall in HF. specialize (HF r Hr).
    rewrite Forall_forall in HF. by apply HF. }
  assert (HB : Forall (λ r', Forall (λ c, nutrient_value (get r' c) = get r' c)
                 (filter (λ c, c ∈ columns numeric_df) NUTRIENT_COLS))
                 (rows numeric_result)).
  { apply (bool_decide_unpack _). vm_compute. exact I. }
  assert (H4 : ∀ r' c, r' ∈ rows numeric_result → c ∈ NUTRIENT_COLS →
                       c ∈ columns numeric_df →
                       nutrient_value (get r' c) = get r' c).
  { intros r' c Hr' Hn Hc. rewrite Forall_forall in HB. specialize (HB r' Hr').
    rewrite Forall_forall in HB. apply HB.
    apply list_elem_of_filter. split; [exact Hc|exact Hn]. }
  split_and!; [exact H1|exact H2|exact H3|exact H4|].
  exact (clean_fixed_point insertion_argsort numeric_df true false
           scenario_stdout numeric_result H1 H2 H3 H4).
Defined.

(** ** A caret followed by whitespace *)

Lemma endswith_cons a t suffix :
  PyStr.endswith (String a t) suffix = true →
  String a t = suffix ∨ PyStr.endswith t suffix = true.
Proof.
  cbn [PyStr.endswith]. intros [H|H]%orb_true_iff; [left|by right].
  by apply String.eqb_eq.
Qed.

Lemma endswith_app s t suffix :
  PyStr.endswith t suffix = true → PyStr.endswith (String.append s t) suffix = true.
Proof.
  intros H. induction s as [|a s IH]; [done|].
  rewrite append_cons. cbn [PyStr.endswith]. rewrite IH. apply orb_true_r.
Qed.

Lemma endswith_after s a t :
  PyStr.endswith (String.append s (String a t)) "^" = true → a ≠ "^"%char →
  PyStr.endswith t "^" = true.
Proof.
  intros H Ha. induction s as [|b s IH].
  - change (String.append "" (String a t)) with (String a t) in H.
    apply endswith_cons in H as [H|H]; [|done]. by injection H.
  - rewrite append_cons in H. apply endswith_cons in H as [H|H]; [|by apply IH].
    injection H as _ H. by destruct s.
Qed.

Lemma digits_val_caret s acc :
  PyStr.endswith s "^" = true → Numeric.digits_val s acc = None.
Proof.
  revert acc. induction s as [|a t IH]; intros acc H; [done|].
  cbn [Numeric.digits_val]. apply endswith_cons in H as [H|H].
  - by injection H as -> ->.
  - destruct (Numeric.digit_of a); [by apply IH|done].
Qed.

Lemma rstrip_caret_id s :
  PyStr.endswith s "^" = false → PyStr.rstrip_chars PyStr.is_caret s = s.
Proof.
  induction s as [|a t IH]; [done|]. cbn [PyStr.endswith PyStr.rstrip_chars].
  intros [H1 H2]%orb_false_iff. rewrite IH by done.
  destruct t as [|b t]; [|done].
  apply String.eqb_neq in H1. unfold PyStr.is_caret.
  destruct (Ascii.eqb_spec a "^") as [->|]; done.
Qed.

Lemma split_at_inv p s x y :
  Numeric.split_at p s = (x, y) →
  match y with
  | None => x = s
  | Some t => ∃ a, p a = true ∧ s = String.append x (String a t)
  end.
Proof.
  revert x y. induction s as [|b s IH]; intros x y; cbn [Numeric.split_at].
  - by intros [= <- <-].
  - destruct (p b) eqn:Hb.
    + intros [= <- <-]. by exists b.
    + destruct (Numeric.split_at p s) as [x' y'] eqn:Hs. intros [= <- <-].
      specialize (IH _ _ eq_refl). destruct y' as [t|].
      * destruct IH as (a & Ha & ->). exists a. by rewrite append_cons.
      * by subst.
Qed.

Lemma split_sign_inv s neg ds :
  Numeric.split_sign s = (neg, ds) → ds = s ∨ ∃ a, s = String a ds.
Proof.
  destruct s as [|a t]; [by intros [= <- <-]; left|].
  destruct a as [[] [] [] [] [] [] [] []]; cbn; intros [= <- <-]; eauto.
Qed.

Lemma parse_mantissa_caret s :
  PyStr.endswith s "^" = true → Numeric.parse_mantissa s = None.
Proof.
  intros H. unfold Numeric.parse_mantissa.
  destruct (Numeric.split_at Numeric.is_dot s) as [ip fp] eqn:Hs.
  apply split_at_inv in Hs.
  assert (Hcat : PyStr.endswith (String.append ip (default "" fp)) "^" = true).
  { destruct fp as [t|]; cbn [default from_option id].
    - destruct Hs as (a & Ha & ->). apply endswith_app.
      eapply endswith_after; [exact H|]. by intros ->.
    - subst. by rewrite append_nil_r. }
  destruct (String.append ip (default "" fp)) as [|a t] eqn:Eq; [done|].
  by rewrite digits_val_caret.
Qed.

Lemma parse_exponent_caret s :
  PyStr.endswith s "^" = true → Numeric.parse_exponent (Some s) = None.
Proof.
  intros H. unfold Numeric.parse_exponent.
  destruct (Numeric.split_sign s) as [neg ds] eqn:Hs.
  apply split_sign_inv in Hs as [->|[a ->]].
  - destruct s as [|a t]; [done|]. by rewrite digits_val_caret.
  - apply endswith_cons in H as [H|H].
    + by injection H as -> ->.
    + destruct ds as [|b t]; [done|]. by rewrite digits_val_caret.
Qed.

Lemma lower_endswith_caret s :
  PyStr.endswith s "^" = true → PyStr.endswith (PyStr.lower s) "^" = true.
Proof.
  induction s as [|a t IH]; [done|]. intros [H|H]%endswith_cons.
  - by injection H as -> ->.
  - cbn [PyStr.lower PyStr.map_chars PyStr.endswith]. fold (PyStr.lower t).
    rewrite IH by done. apply orb_true_r.
Qed.

Lemma is_inf_name_caret s :
  PyStr.endswith s "^" = true → Numeric.is_inf_name s = false.
Proof.
  intros H%lower_endswith_caret. unfold Numeric.is_inf_name.
  apply orb_false_iff. split; apply String.eqb_neq; intros Heq;
    rewrite Heq in H; by vm_compute in H.
Qed.

(** No string that ends with a caret is a number. *)
Lemma parse_caret s : PyStr.endswith s "^" = true → Numeric.parse s = None.
Proof.
  intros H. unfold Numeric.parse.
  destruct (Numeric.split_sign s) as [neg body] eqn:Hs.
  assert (Hbody : body = "" ∨ PyStr.endswith body "^" = true).
  { apply split_sign_inv in Hs as [->|[a ->]]; [by right|].
    apply endswith_cons in H as [H|H]; [|by right]. left. by injection H. }
  destruct Hbody as [->|Hbody]; [done|].
  rewrite is_inf_name_caret by done.
  destruct (Numeric.split_at Numeric.is_exp body) as [mant ex] eqn:Hsplit.
  apply split_at_inv in Hsplit. destruct ex as [e|].
  - destruct Hsplit as (a & Ha & ->).
    assert (He : PyStr.endswith e "^" = true).
    { eapply endswith_after; [exact Hbody|]. by intros ->. }
    destruct (Numeric.parse_mantissa mant) as [[n k]|]; [|done].
    cbn [mbind option_bind]. by rewrite parse_exponent_caret.
  - subst. by rewrite parse_mantissa_caret.
Qed.

(** The label looks for the caret after stripping whitespace, the nutrient
    coercion strips carets before whitespace.  A Nutrient cell whose caret
    is followed by whitespace therefore marks its row as an anomaly, and
    its reading is lost: the cell becomes -1. *)
Theorem caret_before_whitespace argsort df verbose out df' r' :
  ArgsortSpec argsort →
  clean argsort df verbose = Ok (out, df') →
  r' ∈ rows df' →
  ∃ r, r ∈ rows df ∧ index r = index r' ∧
    ∀ c s, c ∈ NUTRIENT_COLS → c ∈ columns df → get r c = Str s →
      PyStr.endswith s "^" = false →
      PyStr.endswith (PyStr.strip s) "^" = true →
      get r' c = Num (Fin (-1) 0) ∧ get r' "label_is_anomaly" = Num (Fin 1 0).
Proof.
  intros Hspec Hc Hr'.
  destruct (clean_row_source _ _ _ _ _ _ Hspec Hc Hr') as (r & Hr & -> & _).
  exists r. split_and!; [done|done|]. intros c s Hn HC Hs Hend Hstrip. split.
  - rewrite get_cleaned; [|pose proof (group_facts c); tauto|done].
    rewrite cleaned_cell_nutrient, nutrient_value_unfold, Hs by done.
    cbn [str_of]. rewrite rstrip_caret_id by done. by rewrite parse_caret.
  - rewrite get_label_prepare_row.
    assert (Ha : anomaly (columns df) r = true); [|by rewrite Ha].
    apply anomaly_true. exists c. split_and!; [|done|by rewrite Hs].
    rewrite !elem_of_app. tauto.
Qed.

Definition spaced_caret_df : DataFrame :=
  mkDF ["gtin"; "ingredients_text"; "calories"]
       [row_of 0 [("gtin", Str "8"); ("ingredients_text", Str "tea");
                  ("calories", Str "50^ ")]].

Definition spaced_caret_row : Row :=
  row_of 0 [("gtin", Str "8"); ("ingredients_text", Str "tea");
            ("calories", Num (Fin (-1) 0)); ("label_is_anomaly", Num (Fin 1 0))].

Definition spaced_caret_result : DataFrame :=
  mkDF ["gtin"; "ingredients_text"; "calories"; "label_is_anomaly"]
       [spaced_caret_row].

Lemma caret_before_whitespace_witness :
  ArgsortSpec insertion_argsort
  ∧ clean insertion_argsort spaced_caret_df true
    = Ok (scenario_stdout, spaced_caret_result)
  ∧ spaced_caret_row ∈ rows spaced_caret_result
  ∧ ∃ r, r ∈ rows spaced_caret_df ∧ index r = index spaced_caret_row ∧
      ∀ c s, c ∈ NUTRIENT_COLS → c ∈ columns spaced_caret_df → get r c = Str s →
        PyStr.endswith s "^" = false →
        PyStr.endswith (PyStr.strip s) "^" = true →
        get spaced_caret_row c = Num (Fin (-1) 0)
        ∧ get spaced_caret_row "label_is_anomaly" = Num (Fin 1 0).
Proof.
  assert (H1 : ArgsortSpec insertion_argsort) by exact insertion_argsort_spec.
  assert (H2 : clean insertion_argsort spaced_caret_df true
               = Ok (scenario_stdout, spaced_caret_result)) by (vm_compute; reflexivity).
  assert (H3 : spaced_caret_row ∈ rows spaced_caret_result) by (cbn; left).
  split_and!; [exact H1|exact H2|exact H3|].
  exact (caret_before_whitespace insertion_argsort spaced_caret_df true
           scenario_stdout spaced_caret_result spaced_caret_row H1 H2 H3).
Defined.

(** ** Identifiers that reach the output *)

(** No identifier is lost to the deduplication: an input row whose
    identifier is present and whose ingredients text, if the table has that
    column, is present and not blank, has a row with its identifier in the
    output. *)
Theorem identifier_not_lost argsort df verbose out df' r :
  ArgsortSpec argsort →
  clean argsort df verbose = Ok (out, df') →
  r ∈ rows df →
  Series.isna (get r "gtin") = false →
  ("ingredients_text" ∈ columns df →
   Series.isna (get r "ingredients_text") = false
   ∧ PyStr.strip (str_of (get r "ingredients_text")) ≠ "") →
  ∃ r', r' ∈ rows df' ∧ get r' "gtin" = Str (str_of (get r "gtin")).
Proof.
  intros Hspec Hc Hr Hg Hi.
  destruct (decide ("gtin" ∈ columns df)) as [HG|HG]; cycle 1.
  { by rewrite clean_no_gtin in Hc. }
  destruct (clean_ok argsort verbose df Hspec HG) as (out' & rs & Heq & HF).
  rewrite Heq in Hc. injection Hc as <- <-. cbn [rows].
  assert (Hgt : get (prepare_row (columns df) r) "gtin" = Str (str_of (get r "gtin"))).
  { rewrite get_cleaned; [|apply COLS_TO_KEEP_groups; left; by left|done].
    rewrite cleaned_cell_text by (by left).
    unfold Series.astype_string. by rewrite Hg. }
  assert (Hs : prepare_row (columns df) r ∈ rs).
  { rewrite (sorted_Permutation _ _ _ Hspec HF). apply elem_of_survivors.
    rewrite prepared_eq. cbn [rows columns]. split_and!.
    - by apply list_elem_of_fmap_2.
    - by rewrite Hgt.
    - intros Hin. apply (proj1 (ingredients_in_out_columns _)) in Hin.
      destruct (Hi Hin) as [Hn Hb].
      rewrite get_cleaned; [|apply COLS_TO_KEEP_groups; left; right; by do 2 right; left|done].
      rewrite cleaned_cell_text by (right; do 2 right; left).
      unfold Series.astype_string. rewrite Hn. unfold has_ingredients.
      cbn [Series.notna Series.isna negb andb Series.astype_str str_of
           Series.str_strip fmap option_fmap option_map].
      rewrite bool_decide_false; [done|]. by intros [= ?]. }
  destruct (keep_first_covers (λ r, get r "gtin") [] rs _ Hs) as (r' & Hr' & Hk).
  { by intros ?%elem_of_nil. }
  exists r'. split; [done|]. by rewrite Hk.
Qed.

Definition twin_row (i : nat) (g : string) : Row :=
  row_of i [("gtin", Str g); ("ingredients_text", Str "rice")].

Definition twin_df : DataFrame :=
  mkDF ["gtin"; "ingredients_text"] [twin_row 0 "9"; twin_row 1 "4"; twin_row 2 "9"].

Definition twin_result : DataFrame :=
  mkDF ["gtin"; "ingredients_text"; "label_is_anomaly"]
       [row_of 1 [("gtin", Str "4"); ("ingredients_text", Str "rice");
                  ("label_is_anomaly", Num (Fin 0 0))];
        row_of 0 [("gtin", Str "9"); ("ingredients_text", Str "rice");
                  ("label_is_anomaly", Num (Fin 0 0))]].

Definition twin_stdout : stdout :=
  [("Initial rows", 3); ("Removed (no GTIN)", 0);
   ("Removed (empty ingredients_text)", 0); ("Removed (duplicate GTINs)", 1);
   ("Final rows", 2); ("Total removed", 1)].

Lemma identifier_not_lost_witness :
  ∃ r', r' ∈ rows twin_result
        ∧ get r' "gtin" = Str (str_of (get (twin_row 2 "9") "gtin")).
Proof.
  apply (identifier_not_lost insertion_argsort twin_df true twin_stdout twin_result
           (twin_row 2 "9")).
  - exact insertion_argsort_spec.
  - vm_compute. reflexivity.
  - cbn. do 2 right. left.
  - reflexivity.
  - intros _. split; [reflexivity|]. vm_compute. discriminate.
Defined.
